(** * Matcha-TTS / Vocos inference script ([matcha_vocos_inference.py])

    A shallow embedding of the orchestration layer of the Catalan
    text-to-speech script: the speaker-to-cleaner table, the text
    front end, the [synthesise]/[tts] pipeline with its timing
    instrumentation, the output sink, and the command line.

    Conventions of the embedding:
    - a Python [str] is a [string], a Python [int] is a [Z];
    - a Python [float] is abstracted by an exact rational [Q];
    - a [torch.long] tensor of rank one is a [list Z];
    - exceptions are the [Raise] branch of [result]; effectful code lives
      in the monad [M], which threads a [world] (file system, call trace,
      number of clock reads);
    - the acoustic model and the vocoder are opaque functions carried in
      an environment, as the script keeps them in module-level globals. *)

From Stdlib Require Import ZArith QArith List String Ascii Lia.
From stdpp Require Import base option list gmap strings pretty.

Local Open Scope string_scope.
Local Open Scope list_scope.

(** ** Exceptions and the result type *)

Abbreviation path := (list string).

Inductive exn : Type :=
| UnknownProfile (name : string)
| EncodingError (c : ascii)
| KeyError (k : Z)
| TensorOverflow (v : Z)
| IndexError
| ZeroDivisionError
| TypeError
| FileExistsError (p : path)
| FileNotFoundError (p : path)
| NotADirectoryError (p : path)
| IsADirectoryError (p : path)
| LibsndfileError (p : path)
| ModelError (msg : string)
| LoadError (identifier : string).

Inductive result (A : Type) : Type :=
| Ok (a : A)
| Raise (e : exn).
Arguments Ok {A} a.
Arguments Raise {A} e.

#[global] Instance result_ret : MRet result := λ A a, Ok a.
#[global] Instance result_bind : MBind result := λ A B f r,
  match r with
  | Ok a => f a
  | Raise e => Raise e
  end.

(** ** The speaker-to-cleaner table *)

Definition MULTIACCENT_MODEL : string := "projecte-aina/matxa-tts-cat-multiaccent".
Definition DEFAULT_CLEANER : string := "catalan_cleaners".

Definition speaker_cleaner_mapping : gmap Z string :=
  <[0%Z := "catalan_balear_cleaners"]>
  (<[1%Z := "catalan_balear_cleaners"]>
  (<[2%Z := "catalan_cleaners"]>
  (<[3%Z := "catalan_cleaners"]>
  (<[4%Z := "catalan_occidental_cleaners"]>
  (<[5%Z := "catalan_occidental_cleaners"]>
  (<[6%Z := "catalan_valencia_cleaners"]>
  (<[7%Z := "catalan_valencia_cleaners"]> ∅))))))).

(** [speaker_cleaner_mapping.get(speaker_id, DEFAULT_CLEANER)] *)
Definition get_cleaner_for_speaker_id (speaker_id : Z) : string :=
  default DEFAULT_CLEANER (speaker_cleaner_mapping !! speaker_id).

(** The model identifiers fixed at the top of the [__main__] block. *)
Definition matxa : string := "projecte-aina/matxa-tts-cat-multiaccent".
Definition alvocat : string := "projecte-aina/alvocat-vocos-22khz".

Definition default_cleaner : string :=
  if String.eqb matxa MULTIACCENT_MODEL then "auto" else DEFAULT_CLEANER.

(** Line 147 of the script: the cleaner handed to [tts], from the parsed
    [--speaker_id] and [--cleaner]. *)
Definition resolve_cleaner (speaker_id : Z) (requested : string) : string :=
  if String.eqb default_cleaner "auto" && String.eqb requested "auto"
  then get_cleaner_for_speaker_id speaker_id
  else requested.

(** ** Text front end *)

(** Modelled from the spec: [intersperse] of [matcha.utils.utils] is not
    under src/.  The spec words it as inserting a constant separator code
    between every adjacent pair of real symbols, which turns [N >= 1]
    symbols into [2N-1]. *)
Fixpoint intersperse {A : Type} (lst : list A) (item : A) : list A :=
  match lst with
  | [] => []
  | a :: rest =>
      match rest with
      | [] => [a]
      | _ :: _ => a :: item :: intersperse rest item
      end
  end.

Section TextFrontend.

(** Modelled from the spec: the symbol table of [matcha.text] is not
    under src/.  A profile's vocabulary is a finite table of symbols; the
    code of a symbol is its position in the table. *)
Variable symbols : list ascii.

(** Modelled from the spec: the registry of cleaners of [matcha.text] is
    not under src/.  A registered profile names a text-to-text cleaning
    function; any other name is unregistered. *)
Variable cleaners : gmap string (string → string).

(** Modelled from the spec: the position of a symbol in the table, which
    is its code; part of [matcha.text], not under src/. *)
Fixpoint index_of (c : ascii) (l : list ascii) : option nat :=
  match l with
  | [] => None
  | s :: l' => if Ascii.eqb s c then Some 0 else S <$> index_of c l'
  end.

(** Modelled from the spec: the encoding table [_symbol_to_id] of
    [matcha.text], not under src/. *)
Definition symbol_to_id (c : ascii) : option Z :=
  Z.of_nat <$> index_of c symbols.

(** Modelled from the spec: the decoding table [_id_to_symbol] of
    [matcha.text], not under src/; only the positions of the table are
    codes. *)
Definition id_to_symbol (k : Z) : option ascii :=
  if (0 <=? k)%Z then symbols !! Z.to_nat k else None.

(** Modelled from the spec: the cleaning step of [text_to_sequence], not
    under src/; it fails with [UnknownProfile] on an unregistered name. *)
Fixpoint _clean_text (text : string) (cleaner_names : list string) : result string :=
  match cleaner_names with
  | [] => Ok text
  | name :: rest =>
      match cleaners !! name with
      | None => Raise (UnknownProfile name)
      | Some cleaner => _clean_text (cleaner text) rest
      end
  end.

(** Modelled from the spec: the encoding loop of [text_to_sequence], not
    under src/; a character the profile cannot map is an
    [EncodingError]. *)
Fixpoint encode_symbols (cs : list ascii) : result (list Z) :=
  match cs with
  | [] => Ok []
  | c :: cs' =>
      match symbol_to_id c with
      | None => Raise (EncodingError c)
      | Some k => ks ← encode_symbols cs'; Ok (k :: ks)
      end
  end.

(** Modelled from the spec: [text_to_sequence] of [matcha.text], not
    under src/: clean the text with the named profile, then map every
    character to its code; a character outside the vocabulary is an
    [EncodingError]. *)
Definition text_to_sequence (text : string) (cleaner_names : list string)
  : result (list Z) :=
  clean_text ← _clean_text text cleaner_names;
  encode_symbols (list_ascii_of_string clean_text).

(** Modelled from the spec: [sequence_to_text] of [matcha.text], not
    under src/: the concatenation of the symbols the codes stand for. *)
Fixpoint sequence_to_text (sequence : list Z) : result string :=
  match sequence with
  | [] => Ok ""
  | symbol_id :: rest =>
      match id_to_symbol symbol_id with
      | None => Raise (KeyError symbol_id)
      | Some s => r ← sequence_to_text rest; Ok (String s r)
      end
  end.

(** The dictionary returned by [process_text].  [x] is the single row of
    the [1 x L] tensor built with [[None]], and [x_lengths] the
    one-element tensor [[L]].  The codes are positions in the in-memory
    symbol table and [L] is the size of an in-memory list, so the
    conversion to [torch.long] is the identity on both. *)
Record text_processed : Type := {
  x_orig : string;
  x : list Z;
  x_lengths : list Z;
  x_phones : string
}.

Definition process_text (text : string) (cleaner : string) : result text_processed :=
  sequence ← text_to_sequence text [cleaner];
  let x := intersperse sequence 0%Z in
  let x_lengths := [Z.of_nat (length x)] in
  (* x.squeeze(0).tolist() is the row x itself *)
  x_phones ← sequence_to_text x;
  Ok {| x_orig := text; x := x; x_lengths := x_lengths; x_phones := x_phones |}.

End TextFrontend.

(** ** Tensors, the external models and the world *)

(** [torch.tensor(values, dtype=torch.long)] for caller-supplied Python
    integers: a signed 64-bit element type; for a value outside its range
    the constructor raises (a [RuntimeError], here [TensorOverflow])
    instead of wrapping. *)
Definition int64_min : Z := (- 2 ^ 63)%Z.
Definition int64_max : Z := (2 ^ 63 - 1)%Z.

Definition fits_int64 (v : Z) : bool := (int64_min <=? v)%Z && (v <=? int64_max)%Z.

Fixpoint tensor_long (values : list Z) : result (list Z) :=
  match values with
  | [] => Ok []
  | v :: rest =>
      if fits_int64 v then (r ← tensor_long rest; Ok (v :: r))
      else Raise (TensorOverflow v)
  end.

(** A mel-spectrogram: frequency bins by time frames. *)
Abbreviation mel_t := (list (list Q)).

(** The result of [vocoder.decode(mel).cpu().squeeze()].  The vocoder
    returns one row of samples per batch entry; [squeeze] drops every
    dimension of size one, so a single sample becomes a 0-dimensional
    tensor, which has no last dimension. *)
Inductive audio : Type :=
| Scalar (s : Q)
| Samples (l : list Q).

Definition squeeze (row : list Q) : audio :=
  match row with
  | [s] => Scalar s
  | _ => Samples row
  end.

(** [audio.shape[-1]] *)
Definition shape_last (a : audio) : result Z :=
  match a with
  | Scalar _ => Raise IndexError
  | Samples l => Ok (Z.of_nat (length l))
  end.

(** The keyword arguments of [model.synthesise]. *)
Record synth_args : Type := {
  a_x : list Z;
  a_x_lengths : list Z;
  a_n_timesteps : Z;
  a_temperature : Q;
  a_spks : option (list Z);
  a_length_scale : Q
}.

(** The entries of the model's output dictionary the script reads. *)
Record model_output : Type := {
  o_mel : mel_t;
  o_rtf : Q
}.

Record acoustic_model : Type := {
  model_synthesise : synth_args → result model_output;
  model_parameters : Z
}.

Record vocoder_model : Type := {
  vocoder_decode : mel_t → result (list Q)
}.

(** The module-level globals [model] and [vocos_vocoder]. *)
Record globals : Type := {
  model : acoustic_model;
  vocos_vocoder : vocoder_model
}.

(** Files on disk. *)
Inductive file_content : Type :=
| NpyArray (m : mel_t)
| WavFile (data : audio) (samplerate : Z) (subtype : string)
| Blob (bytes : string).

Inductive node : Type :=
| Dir
| File (c : file_content).

(** What the script prints. *)
Inductive message : Type :=
| MsgThreads (n : Z)
| MsgModelLoaded (parameter_count : Z)
| MsgMelShape (bins frames : nat)
| MsgRule (c : ascii)
| MsgLine (s : string)
| MsgRtf (rtf : Q)
| MsgRtfWaveform (rtf_w : Q)
| MsgOdeSteps (n_timesteps : Z)
| MsgMeanRtf (rtfs : list Q)
| MsgMeanRtfWaveform (rtfs_w : list Q).

(** Observable calls, in the order they happen. *)
Inductive event : Type :=
| EvNow (microseconds : Z)
| EvLoadModel (identifier : string)
| EvLoadVocoder (identifier : string)
| EvSynthesise (a : synth_args)
| EvDecode (m : mel_t)
| EvPrint (m : message).

Record world : Type := {
  w_fs : gmap path node;
  w_trace : list event;
  w_ticks : nat
}.

Definition M (A : Type) : Type := world → result A * world.

#[global] Instance M_ret : MRet M := λ A a w, (Ok a, w).
#[global] Instance M_bind : MBind M := λ A B f m w,
  match m w with
  | (Ok a, w') => f a w'
  | (Raise e, w') => (Raise e, w')
  end.

Definition lift {A : Type} (r : result A) : M A := λ w, (r, w).

(** The world after some more events, and the world with another file
    system. *)
Definition log (evs : list event) (w : world) : world :=
  {| w_fs := w_fs w; w_trace := w_trace w ++ evs; w_ticks := w_ticks w |}.

Definition set_fs (fs : gmap path node) (w : world) : world :=
  {| w_fs := fs; w_trace := w_trace w; w_ticks := w_ticks w |}.

(** The world after one more reading of the clock. *)
Definition advance (w : world) : world :=
  {| w_fs := w_fs w; w_trace := w_trace w; w_ticks := S (w_ticks w) |}.

Definition emit (e : event) : M unit := λ w, (Ok (), log [e] w).

Definition print (m : message) : M unit := emit (EvPrint m).

Definition get_fs : M (gmap path node) := λ w, (Ok (w_fs w), w).

Definition put_fs (fs : gmap path node) : M unit := λ w, (Ok (), set_fs fs w).

(** ** The file-system primitives the output sink uses *)

(** [Path.mkdir(exist_ok=True, parents=True)]: walk down from the root,
    creating what is missing; a regular file in the way is an error, an
    existing directory is not. *)
Fixpoint mkdir_parents (done todo : path) (fs : gmap path node)
  : result (gmap path node) :=
  match todo with
  | [] => Ok fs
  | c :: rest =>
      let d := done ++ [c] in
      match fs !! d with
      | Some Dir => mkdir_parents d rest fs
      | Some (File _) =>
          match rest with
          | [] => Raise (FileExistsError d)
          | _ :: _ => Raise (NotADirectoryError d)
          end
      | None => mkdir_parents d rest (<[d := Dir]> fs)
      end
  end.

Definition mkdir (p : path) : M unit :=
  fs ← get_fs;
  fs' ← lift (mkdir_parents [] p fs);
  put_fs fs'.

(** Opening [p] for writing and storing [c]: the parent must be a
    directory and [p] itself must not be one; an existing file is
    replaced. *)
Definition write_file (p : path) (c : file_content) (fs : gmap path node)
  : result (gmap path node) :=
  let parent := removelast p in
  match (if decide (parent = []) then Some Dir else fs !! parent) with
  | None => Raise (FileNotFoundError p)
  | Some (File _) => Raise (NotADirectoryError p)
  | Some Dir =>
      match fs !! p with
      | Some Dir => Raise (IsADirectoryError p)
      | _ => Ok (<[p := File c]> fs)
      end
  end.

Definition ends_with (suffix s : string) : bool :=
  let n := String.length s in
  let m := String.length suffix in
  (m <=? n)%nat && String.eqb (String.substring (n - m) m s) suffix.

(** [folder / name] *)
Definition path_div (folder : path) (name : string) : path := folder ++ [name].

(** [np.save(file, arr)]: the extension [.npy] is appended to the file
    name unless it is there already. *)
Definition np_save (file : path) (arr : mel_t) : M unit :=
  let file' :=
    match last file with
    | Some name =>
        if ends_with ".npy" name then file
        else removelast file ++ [name +:+ ".npy"]
    | None => file
    end in
  fs ← get_fs;
  fs' ← lift (write_file file' (NpyArray arr) fs);
  put_fs fs'.

(** [sf.write(file, data, samplerate, subtype)]: the sound-file library
    reports a file it cannot open with an error of its own. *)
Definition sf_write (file : path) (data : audio) (samplerate : Z) (subtype : string)
  : M unit :=
  fs ← get_fs;
  fs' ← lift (match write_file file (WavFile data samplerate subtype) fs with
              | Ok fs' => Ok fs'
              | Raise _ => Raise (LibsndfileError file)
              end);
  put_fs fs'.

(** [os.path.join(output_path, name)]; [output_path] is [None] when the
    flag is not given, and joining [None] is a [TypeError]. *)
Definition os_path_join (output_path : option path) (name : string) : result path :=
  match output_path with
  | None => Raise TypeError
  | Some root => Ok (root ++ [name])
  end.

(** ** The synthesis pipeline *)

(** [timedelta.total_seconds()], from a difference in microseconds. *)
Definition total_seconds (microseconds : Z) : Q :=
  (inject_Z microseconds / 1000000)%Q.

(** [a / n] for a float [a] and an integer [n]. *)
Definition true_div (a : Q) (n : Z) : result Q :=
  if (n =? 0)%Z then Raise ZeroDivisionError else Ok (a / inject_Z n)%Q.

(** The dictionary [output] of [synthesise], after
    [output.update({'start_t': start_t, **text_processed})]. *)
Record synth_output : Type := {
  mel : mel_t;
  rtf : Q;
  start_t : Z;
  processed : text_processed
}.

(** Default values of the keyword parameters of [tts]. *)
Definition tts_default_n_timesteps : Z := 10.
Definition tts_default_length_scale : Q := 1%Q.
Definition tts_default_temperature : Q := (7 # 10)%Q.
Definition tts_default_output_path : option path := None.
Definition tts_default_cleaner : string := "catalan_cleaners".

(** The arguments [synthesise] hands to [model.synthesise]. *)
Definition synthesise_call (text_processed : text_processed)
    (spks : option (list Z)) (n_timesteps : Z) (temperature length_scale : Q)
  : synth_args :=
  {| a_x := x text_processed;
     a_x_lengths := x_lengths text_processed;
     a_n_timesteps := n_timesteps;
     a_temperature := temperature;
     a_spks := spks;
     a_length_scale := length_scale |}.

(** Line 80 of the script: the speaker conditioning [n_spk]. *)
Definition speaker_tensor (spk_id : Z) : result (option (list Z)) :=
  if (0 <=? spk_id)%Z
  then (t ← tensor_long [spk_id]; Ok (Some t))
  else Ok None.

Section Pipeline.

Variable symbols : list ascii.
Variable cleaners : gmap string (string → string).

(** The wall clock: the time, in microseconds, that the [k]-th call of
    [datetime.now()] in the process returns. *)
Variable clock : nat → Z.

Definition datetime_now : M Z := λ w,
  let t := clock (w_ticks w) in
  (Ok t, log [EvNow t] (advance w)).

Variable g : globals.

Definition synthesise (text : string) (spks : option (list Z)) (n_timesteps : Z)
    (temperature length_scale : Q) (cleaner : string) : M synth_output :=
  text_processed ← lift (process_text symbols cleaners text cleaner);
  start_t ← datetime_now;
  let args :=
    synthesise_call text_processed spks n_timesteps temperature length_scale in
  emit (EvSynthesise args);;
  output ← lift (model_synthesise (model g) args);
  mret {| mel := o_mel output; rtf := o_rtf output;
          start_t := start_t; processed := text_processed |}.

Definition to_vocos_waveform (mel : mel_t) (vocoder : vocoder_model) : M audio :=
  emit (EvDecode mel);;
  row ← lift (vocoder_decode vocoder mel);
  mret (squeeze row).

Definition save_to_folder (filename : string) (output : synth_output)
    (waveform : audio) (folder : path) : M unit :=
  mkdir folder;;
  np_save (path_div folder filename) (mel output);;
  sf_write (path_div folder (filename +:+ ".wav")) waveform 22050 "PCM_24".

Definition mel_frames (m : mel_t) : nat :=
  match m with
  | [] => 0
  | row :: _ => length row
  end.

Definition tts (text : string) (spk_id : Z) (n_timesteps : Z)
    (length_scale temperature : Q) (output_path : option path)
    (cleaner : string) : M unit :=
  n_spk ← lift (speaker_tensor spk_id);
  output ← synthesise text n_spk n_timesteps temperature length_scale cleaner;
  print (MsgMelShape (length (mel output)) (mel_frames (mel output)));;
  waveform ← to_vocos_waveform (mel output) (vocos_vocoder g);
  (* Compute Real Time Factor (RTF) with Vocoder *)
  now ← datetime_now;
  let t := total_seconds (now - start_t output)%Z in
  samples ← lift (shape_last waveform);
  rtf_w ← lift (true_div (t * 22050)%Q samples);
  (* Pretty print *)
  print (MsgRule "*");;
  print (MsgLine "Input text");;
  print (MsgRule "-");;
  print (MsgLine (x_orig (processed output)));;
  print (MsgRule "*");;
  print (MsgLine "Phonetised text");;
  print (MsgRule "-");;
  print (MsgLine (x_phones (processed output)));;
  print (MsgRule "*");;
  print (MsgRtf (rtf output));;
  print (MsgRtfWaveform rtf_w);;
  let rtfs := [rtf output] in
  let rtfs_w := [rtf_w] in
  (* Save the generated waveform *)
  folder ← lift (os_path_join output_path ("spk_" +:+ pretty spk_id));
  save_to_folder "synth" output waveform folder;;
  print (MsgOdeSteps n_timesteps);;
  print (MsgMeanRtf rtfs);;
  print (MsgMeanRtfWaveform rtfs_w).

End Pipeline.

(** The report [tts] prints before saving, and the summary after. *)
Definition report (x_orig x_phones : string) (rtf rtf_w : Q) : list event :=
  [ EvPrint (MsgRule "*"); EvPrint (MsgLine "Input text"); EvPrint (MsgRule "-");
    EvPrint (MsgLine x_orig);
    EvPrint (MsgRule "*"); EvPrint (MsgLine "Phonetised text"); EvPrint (MsgRule "-");
    EvPrint (MsgLine x_phones);
    EvPrint (MsgRule "*"); EvPrint (MsgRtf rtf); EvPrint (MsgRtfWaveform rtf_w) ].

Definition summary (n_timesteps : Z) (rtf rtf_w : Q) : list event :=
  [ EvPrint (MsgOdeSteps n_timesteps); EvPrint (MsgMeanRtf [rtf]);
    EvPrint (MsgMeanRtfWaveform [rtf_w]) ].

(** ** The command line *)

(** The attributes of the namespace [parser.parse_args()] returns. *)
Record namespace : Type := {
  output_path : option path;
  text_input : string;
  temperature : Q;
  length_scale : Q;
  speaker_id : Z;
  cleaner : string
}.

(** One flag given on the command line, with its value already converted
    by the [type] of the argument. *)
Inductive cli_argument : Type :=
| Arg_output_path (p : path)
| Arg_text_input (s : string)
| Arg_temperature (q : Q)
| Arg_length_scale (q : Q)
| Arg_speaker_id (n : Z)
| Arg_cleaner (s : string).

(** The option string of each [add_argument] call. *)
Definition flag_of (a : cli_argument) : string :=
  match a with
  | Arg_output_path _ => "--output_path"
  | Arg_text_input _ => "--text_input"
  | Arg_temperature _ => "--temperature"
  | Arg_length_scale _ => "--length_scale"
  | Arg_speaker_id _ => "--speaker_id"
  | Arg_cleaner _ => "--cleaner"
  end.

(** The [default=] of each [add_argument] call. *)
Definition parser_defaults : namespace :=
  {| output_path := None;
     text_input := "Això és una prova de síntesi de veu.";
     temperature := (7 # 10)%Q;
     length_scale := (9 # 10)%Q;
     speaker_id := 2;
     cleaner := default_cleaner |}.

Definition set_argument (ns : namespace) (a : cli_argument) : namespace :=
  match a with
  | Arg_output_path p =>
      {| output_path := Some p; text_input := text_input ns;
         temperature := temperature ns; length_scale := length_scale ns;
         speaker_id := speaker_id ns; cleaner := cleaner ns |}
  | Arg_text_input s =>
      {| output_path := output_path ns; text_input := s;
         temperature := temperature ns; length_scale := length_scale ns;
         speaker_id := speaker_id ns; cleaner := cleaner ns |}
  | Arg_temperature q =>
      {| output_path := output_path ns; text_input := text_input ns;
         temperature := q; length_scale := length_scale ns;
         speaker_id := speaker_id ns; cleaner := cleaner ns |}
  | Arg_length_scale q =>
      {| output_path := output_path ns; text_input := text_input ns;
         temperature := temperature ns; length_scale := q;
         speaker_id := speaker_id ns; cleaner := cleaner ns |}
  | Arg_speaker_id n =>
      {| output_path := output_path ns; text_input := text_input ns;
         temperature := temperature ns; length_scale := length_scale ns;
         speaker_id := n; cleaner := cleaner ns |}
  | Arg_cleaner s =>
      {| output_path := output_path ns; text_input := text_input ns;
         temperature := temperature ns; length_scale := length_scale ns;
         speaker_id := speaker_id ns; cleaner := s |}
  end.

(** [parser.parse_args()]: every flag is optional; a flag given twice
    keeps its last value. *)
Definition parse_args (argv : list cli_argument) : namespace :=
  fold_left set_argument argv parser_defaults.

Section Main.

Variable symbols : list ascii.
Variable cleaners : gmap string (string → string).
Variable clock : nat → Z.

(** The remote model registry behind [from_pretrained]. *)
Variable hub_matcha : string → option acoustic_model.
Variable hub_vocos : string → option vocoder_model.

(** [torch.get_num_threads()] at start-up. *)
Variable initial_threads : Z.

Definition load_model_from_hf (matcha_hf : string) : M acoustic_model :=
  emit (EvLoadModel matcha_hf);;
  lift (match hub_matcha matcha_hf with
        | Some m => Ok m
        | None => Raise (LoadError matcha_hf)
        end).

Definition load_vocos_vocoder_from_hf (vocos_hf : string) : M vocoder_model :=
  emit (EvLoadVocoder vocos_hf);;
  lift (match hub_vocos vocos_hf with
        | Some v => Ok v
        | None => Raise (LoadError vocos_hf)
        end).

(** The [__main__] block. *)
Definition main (argv : list cli_argument) : M unit :=
  let args := parse_args argv in
  let cleaner := resolve_cleaner (speaker_id args) (cleaner args) in
  print (MsgThreads initial_threads);;
  print (MsgThreads 8);;
  model ← load_model_from_hf matxa;
  print (MsgModelLoaded (model_parameters model));;
  vocos_vocoder ← load_vocos_vocoder_from_hf alvocat;
  tts symbols cleaners clock {| model := model; vocos_vocoder := vocos_vocoder |}
    (text_input args) (speaker_id args) 80 (length_scale args) (temperature args)
    (output_path args) cleaner.

End Main.

(** Everything a run of [tts] that returns normally records, in order. *)
Definition run_events (t0 : Z) (args : synth_args) (o : model_output) (t1 : Z)
  (tp : text_processed) (rtf_w : Q) (n_timesteps : Z) : list event :=
  [ EvNow t0; EvSynthesise args;
    EvPrint (MsgMelShape (length (o_mel o)) (mel_frames (o_mel o)));
    EvDecode (o_mel o); EvNow t1 ]
  ++ report (x_orig tp) (x_phones tp) (o_rtf o) rtf_w
  ++ summary n_timesteps (o_rtf o) rtf_w.

(** ** Counting parameters *)

(** [p.numel()]: the number of elements of a tensor, from its shape. *)
Definition numel (shape : list N) : N := foldr N.mul 1%N shape.

(** [sum(p.numel() for p in x.parameters())], the parameters being given
    by their shapes. *)
Definition total_numel (parameters : list (list N)) : N :=
  foldr (λ shape acc, (numel shape + acc)%N) 0%N parameters.

(** The [,] option of the format specification, on the digits taken from
    the right: a comma goes before every digit that starts a new group of
    three.  [k] is the number of digits the current group can still
    take. *)
Fixpoint group_digits (digits_rev : list ascii) (k : nat) : list ascii :=
  match digits_rev with
  | [] => []
  | d :: rest =>
      match k with
      | 0 => "," :: d :: group_digits rest 2
      | S k' => d :: group_digits rest k'
      end
  end%char.

(** [f"{n:,}"] for a count [n]. *)
Definition format_thousands (n : N) : string :=
  string_of_list_ascii
    (reverse (group_digits (reverse (list_ascii_of_string (pretty n))) 3)).

(** [count_params = lambda x: f"{sum(p.numel() for p in x.parameters()):,}"] *)
Definition count_params (parameters : list (list N)) : string :=
  format_thousands (total_numel parameters).

(** ** Reading a trace *)

(** The calls of [model.synthesise] and of [vocoder.decode] recorded in a
    trace, oldest first. *)
Definition synthesise_calls (trace : list event) : list synth_args :=
  omap (λ e, match e with EvSynthesise a => Some a | _ => None end) trace.

Definition decode_calls (trace : list event) : list mel_t :=
  omap (λ e, match e with EvDecode m => Some m | _ => None end) trace.

(** ** A small configuration used in the examples *)

Definition ex_symbols : list ascii := ["_"; "a"; "b"; " "]%char.

Definition ex_cleaners : gmap string (string → string) :=
  {[ "catalan_cleaners" := (λ s : string, s) ]}.

Definition ex_mel : mel_t := [[1; 2]; [3; 4]]%Q.

Definition ex_model : acoustic_model :=
  {| model_synthesise := λ _, Ok {| o_mel := ex_mel; o_rtf := (1 # 2)%Q |};
     model_parameters := 5 |}.

Definition ex_vocoder : vocoder_model :=
  {| vocoder_decode := λ _, Ok [0; 1; 0]%Q |}.

Definition ex_globals : globals :=
  {| model := ex_model; vocos_vocoder := ex_vocoder |}.

(** A clock that advances by one second between two readings. *)
Definition ex_clock (k : nat) : Z := (1000000 * Z.of_nat k)%Z.

Definition ex_world : world := {| w_fs := ∅; w_trace := []; w_ticks := 0 |}.

(** A disk on which the name of the waveform file is taken by a
    directory. *)
Definition ex_world_blocked : world :=
  {| w_fs := <[ ["out"; "spk_2"; "synth.wav"] := Dir ]>
             (<[ ["out"; "spk_2"] := Dir ]> (<[ ["out"] := Dir ]> ∅));
     w_trace := [];
     w_ticks := 0 |}.

Definition ex_hub_matcha (identifier : string) : option acoustic_model :=
  if String.eqb identifier matxa then Some ex_model else None.

Definition ex_hub_vocos (identifier : string) : option vocoder_model :=
  if String.eqb identifier alvocat then Some ex_vocoder else None.

(** Models that fail, and vocoders that return no sample or a single
    one. *)
Definition ex_model_failing : acoustic_model :=
  {| model_synthesise := λ _, Raise (ModelError "non-finite value");
     model_parameters := 5 |}.

Definition ex_vocoder_failing : vocoder_model :=
  {| vocoder_decode := λ _, Raise (ModelError "shape mismatch") |}.

Definition ex_vocoder_silent : vocoder_model :=
  {| vocoder_decode := λ _, Ok [] |}.

Definition ex_vocoder_single : vocoder_model :=
  {| vocoder_decode := λ _, Ok [0%Q] |}.

(** The output dictionary of a run on the text "ab". *)
Definition ex_output : synth_output :=
  {| mel := ex_mel; rtf := (1 # 2)%Q; start_t := 0;
     processed := {| x_orig := "ab"; x := [1; 0; 2]%Z; x_lengths := [3%Z];
                     x_phones := "a_b" |} |}.

(** A registry from which nothing can be fetched. *)
Definition ex_hub_offline {A : Type} (identifier : string) : option A := None.

(** * Properties *)

(** ** The speaker-to-cleaner table *)

Lemma speaker_cleaner_mapping_absent (id : Z) :
  (id < 0 ∨ 7 < id)%Z → speaker_cleaner_mapping !! id = None.
Proof.
  intros Hid. unfold speaker_cleaner_mapping.
  repeat (rewrite lookup_insert_ne by lia).
  apply lookup_empty.
Qed.

Lemma resolve_cleaner_auto (id : Z) :
  resolve_cleaner id "auto" = get_cleaner_for_speaker_id id.
Proof. reflexivity. Qed.

Lemma resolve_cleaner_explicit (id : Z) (requested : string) :
  requested ≠ "auto" → resolve_cleaner id requested = requested.
Proof.
  intros Hne. unfold resolve_cleaner.
  destruct (String.eqb_spec requested "auto") as [Heq | _]; [contradiction |].
  now rewrite andb_false_r.
Qed.

(** C1.  Profile resolution.  The fixed table maps 0 and 1 to the Balearic
    cleaner, 2 and 3 to the central one, 4 and 5 to the western one, 6 and
    7 to the Valencian one, and holds no other speaker id.  With the
    profile ["auto"], a speaker id of the table resolves to its entry and
    any other speaker id to ["catalan_cleaners"]; a requested profile
    other than ["auto"] is returned unchanged, whatever the speaker id. *)
Theorem resolve_cleaner_profile (id : Z) (requested : string) :
  (speaker_cleaner_mapping !! 0%Z = Some "catalan_balear_cleaners"
   ∧ speaker_cleaner_mapping !! 1%Z = Some "catalan_balear_cleaners"
   ∧ speaker_cleaner_mapping !! 2%Z = Some "catalan_cleaners"
   ∧ speaker_cleaner_mapping !! 3%Z = Some "catalan_cleaners"
   ∧ speaker_cleaner_mapping !! 4%Z = Some "catalan_occidental_cleaners"
   ∧ speaker_cleaner_mapping !! 5%Z = Some "catalan_occidental_cleaners"
   ∧ speaker_cleaner_mapping !! 6%Z = Some "catalan_valencia_cleaners"
   ∧ speaker_cleaner_mapping !! 7%Z = Some "catalan_valencia_cleaners"
   ∧ ((id < 0 ∨ 7 < id)%Z → speaker_cleaner_mapping !! id = None))
  ∧ (∀ profile, speaker_cleaner_mapping !! id = Some profile →
       resolve_cleaner id "auto" = profile)
  ∧ (speaker_cleaner_mapping !! id = None →
       resolve_cleaner id "auto" = "catalan_cleaners")
  ∧ (requested ≠ "auto" → resolve_cleaner id requested = requested).
Proof.
  split; [| split; [| split]].
  - repeat (split; [reflexivity |]). apply speaker_cleaner_mapping_absent.
  - intros profile Hin. rewrite resolve_cleaner_auto.
    unfold get_cleaner_for_speaker_id. now rewrite Hin.
  - intros Hout. rewrite resolve_cleaner_auto.
    unfold get_cleaner_for_speaker_id. now rewrite Hout.
  - apply resolve_cleaner_explicit.
Qed.

Lemma resolve_cleaner_profile_witness :
  resolve_cleaner 0 "auto" = "catalan_balear_cleaners"
  ∧ resolve_cleaner 99 "auto" = "catalan_cleaners"
  ∧ resolve_cleaner 99 "catalan_valencia_cleaners" = "catalan_valencia_cleaners".
Proof.
  destruct (resolve_cleaner_profile 0 "auto") as ((H0 & _) & Hin & _).
  destruct (resolve_cleaner_profile 99 "catalan_valencia_cleaners")
    as ((_ & _ & _ & _ & _ & _ & _ & _ & Habsent) & _ & Hout & Hexplicit).
  split; [| split].
  - apply Hin, H0.
  - apply Hout, Habsent. right. lia.
  - apply Hexplicit. discriminate.
Defined.

(** ** Interspersion *)

Section Intersperse.

Context {A : Type}.
Implicit Types (lst : list A) (item : A).

Lemma intersperse_cons2 a b lst item :
  intersperse (a :: b :: lst) item = a :: item :: intersperse (b :: lst) item.
Proof. reflexivity. Qed.

Lemma intersperse_length lst item :
  lst ≠ [] → length (intersperse lst item) = 2 * length lst - 1.
Proof.
  induction lst as [| a [| b rest] IH]; intros Hne.
  - contradiction.
  - reflexivity.
  - rewrite intersperse_cons2. cbn [length].
    rewrite IH by discriminate. cbn [length]. lia.
Qed.

Lemma intersperse_lookup_symbol lst item (i : nat) :
  intersperse lst item !! (2 * i) = lst !! i.
Proof.
  revert i. induction lst as [| a [| b rest] IH]; intros i.
  - reflexivity.
  - destruct i as [| i]; [reflexivity |].
    replace (2 * S i) with (S (S (2 * i))) by lia. reflexivity.
  - rewrite intersperse_cons2. destruct i as [| i]; [reflexivity |].
    replace (2 * S i) with (S (S (2 * i))) by lia.
    cbn [lookup list_lookup]. apply IH.
Qed.

Lemma intersperse_lookup_separator lst item (i : nat) :
  i + 1 < length lst → intersperse lst item !! (2 * i + 1) = Some item.
Proof.
  revert i. induction lst as [| a [| b rest] IH]; intros i Hi.
  - cbn in Hi. lia.
  - cbn in Hi. lia.
  - rewrite intersperse_cons2. destruct i as [| i]; [reflexivity |].
    replace (2 * S i + 1) with (S (S (2 * i + 1))) by lia.
    cbn [lookup list_lookup]. apply IH. cbn [length] in *. lia.
Qed.

End Intersperse.

(** ** Encoding and decoding against the symbol table *)

Section TextFrontendFacts.

Variable symbols : list ascii.
Variable cleaners : gmap string (string → string).

Lemma index_of_lookup (c : ascii) (l : list ascii) (i : nat) :
  index_of c l = Some i → l !! i = Some c.
Proof.
  revert i. induction l as [| s l IH]; intros i Hi; [discriminate |].
  cbn in Hi. destruct (Ascii.eqb_spec s c) as [-> | _].
  - injection Hi as <-. reflexivity.
  - destruct (index_of c l) as [j |]; [| discriminate].
    injection Hi as <-. now apply IH.
Qed.

Lemma symbol_to_id_decodable (c : ascii) (k : Z) :
  symbol_to_id symbols c = Some k → id_to_symbol symbols k = Some c.
Proof.
  unfold symbol_to_id, id_to_symbol. intros Hk.
  destruct (index_of c symbols) as [i |] eqn:Hi; [| discriminate].
  injection Hk as <-.
  destruct (Z.leb_spec 0 (Z.of_nat i)) as [_ | Hneg]; [| lia].
  rewrite Nat2Z.id. now apply index_of_lookup.
Qed.

Lemma symbol_to_id_some_table (c : ascii) (k : Z) :
  symbol_to_id symbols c = Some k → symbols ≠ [].
Proof.
  unfold symbol_to_id. destruct symbols; [discriminate | discriminate].
Qed.

Lemma encode_symbols_inv (c : ascii) (cs : list ascii) (ks : list Z) :
  encode_symbols symbols (c :: cs) = Ok ks →
  ∃ k ks', symbol_to_id symbols c = Some k
           ∧ encode_symbols symbols cs = Ok ks' ∧ ks = k :: ks'.
Proof.
  cbn. destruct (symbol_to_id symbols c) as [k |]; [| discriminate].
  destruct (encode_symbols symbols cs) as [ks' |]; [| discriminate].
  cbn. intros [= <-]. eauto.
Qed.

Lemma encode_symbols_decode (cs : list ascii) (ks : list Z) :
  encode_symbols symbols cs = Ok ks →
  sequence_to_text symbols ks = Ok (string_of_list_ascii cs).
Proof.
  revert ks. induction cs as [| c cs IH]; intros ks Hks.
  - injection Hks as <-. reflexivity.
  - apply encode_symbols_inv in Hks as (k & ks' & Hk & Hks' & ->).
    cbn. rewrite (symbol_to_id_decodable _ _ Hk), (IH _ Hks'). reflexivity.
Qed.

Lemma encode_symbols_decodable (cs : list ascii) (ks : list Z) :
  encode_symbols symbols cs = Ok ks →
  Forall (λ k, ∃ c, id_to_symbol symbols k = Some c) ks.
Proof.
  revert ks. induction cs as [| c cs IH]; intros ks Hks.
  - injection Hks as <-. constructor.
  - apply encode_symbols_inv in Hks as (k & ks' & Hk & Hks' & ->).
    constructor; [| now apply IH].
    exists c. now apply symbol_to_id_decodable.
Qed.

Lemma encode_symbols_table (cs : list ascii) (ks : list Z) :
  encode_symbols symbols cs = Ok ks → ks ≠ [] → symbols ≠ [].
Proof.
  destruct cs as [| c cs]; intros Hks Hne.
  - injection Hks as <-. contradiction.
  - apply encode_symbols_inv in Hks as (k & ks' & Hk & _ & _).
    eapply symbol_to_id_some_table, Hk.
Qed.

Lemma text_to_sequence_inv (text cleaner : string) (codes : list Z) :
  text_to_sequence symbols cleaners text [cleaner] = Ok codes →
  ∃ f, cleaners !! cleaner = Some f
       ∧ encode_symbols symbols (list_ascii_of_string (f text)) = Ok codes.
Proof.
  unfold text_to_sequence. cbn.
  destruct (cleaners !! cleaner) as [f |]; [| discriminate].
  cbn. eauto.
Qed.

Lemma text_to_sequence_unregistered (text cleaner : string) :
  cleaners !! cleaner = None →
  text_to_sequence symbols cleaners text [cleaner] = Raise (UnknownProfile cleaner).
Proof. unfold text_to_sequence. cbn. now intros ->. Qed.

(** Decoding an interspersed sequence succeeds as soon as every code is
    decodable and so is the separator. *)
Lemma sequence_to_text_intersperse (ks : list Z) (sep : Z) (s : ascii) :
  Forall (λ k, ∃ c, id_to_symbol symbols k = Some c) ks →
  id_to_symbol symbols sep = Some s →
  ∃ phones, sequence_to_text symbols (intersperse ks sep) = Ok phones.
Proof.
  intros Hks Hsep. induction ks as [| k [| k' rest] IH].
  - now exists "".
  - apply Forall_cons in Hks as [[c Hc] _]. cbn. rewrite Hc. cbn. eauto.
  - apply Forall_cons in Hks as [[c Hc] Hrest].
    destruct (IH Hrest) as [phones Hphones].
    rewrite intersperse_cons2.
    cbn [sequence_to_text]. rewrite Hc, Hsep, Hphones. cbn. eauto.
Qed.

Lemma id_to_symbol_zero : symbols ≠ [] → ∃ s, id_to_symbol symbols 0 = Some s.
Proof. destruct symbols as [| s l]; [contradiction |]. intros _. now exists s. Qed.

(** What [process_text] returns once the cleaner has produced codes. *)
Lemma process_text_ok (text cleaner : string) (codes : list Z) :
  text_to_sequence symbols cleaners text [cleaner] = Ok codes →
  ∃ phones,
    sequence_to_text symbols (intersperse codes 0%Z) = Ok phones
    ∧ process_text symbols cleaners text cleaner =
        Ok {| x_orig := text;
              x := intersperse codes 0%Z;
              x_lengths := [Z.of_nat (length (intersperse codes 0%Z))];
              x_phones := phones |}.
Proof.
  intros Hcodes.
  assert (∃ phones, sequence_to_text symbols (intersperse codes 0%Z) = Ok phones)
    as [phones Hphones].
  { destruct (text_to_sequence_inv _ _ _ Hcodes) as (f & _ & Henc).
    destruct codes as [| k rest]; [now exists "" |].
    destruct id_to_symbol_zero as [s Hs].
    { eapply encode_symbols_table; [exact Henc | discriminate]. }
    eapply sequence_to_text_intersperse; [| exact Hs].
    eapply encode_symbols_decodable, Henc. }
  exists phones. split; [exact Hphones |].
  unfold process_text. rewrite Hcodes. cbn. rewrite Hphones. reflexivity.
Qed.

Lemma process_text_unregistered (text cleaner : string) :
  cleaners !! cleaner = None →
  process_text symbols cleaners text cleaner = Raise (UnknownProfile cleaner).
Proof.
  intros Hnone. unfold process_text.
  now rewrite text_to_sequence_unregistered.
Qed.

End TextFrontendFacts.

(** ** The text front end *)

(** C2.  Interspersion invariant.  When the cleaner produces [N >= 1]
    codes, [process_text] returns a symbol sequence of length [2N-1].
    Counting positions from 1, every even position holds the separator
    code 0 and the odd positions hold the cleaner's codes in order, so
    that a separator stands between every adjacent pair of real symbols
    and nowhere else; the declared length [x_lengths] is the actual
    length of the sequence. *)
Theorem process_text_interspersed
    (symbols : list ascii) (cleaners : gmap string (string → string))
    (text cleaner : string) (codes : list Z) :
  text_to_sequence symbols cleaners text [cleaner] = Ok codes →
  (1 ≤ length codes)%nat →
  ∃ tp, process_text symbols cleaners text cleaner = Ok tp
    ∧ length (x tp) = 2 * length codes - 1
    ∧ (∀ k, (1 ≤ k ≤ length (x tp))%nat → Nat.even k = true →
         x tp !! (k - 1) = Some 0%Z)
    ∧ (∀ k, (1 ≤ k ≤ length (x tp))%nat → Nat.odd k = true →
         x tp !! (k - 1) = codes !! ((k - 1) / 2))
    ∧ x_lengths tp = [Z.of_nat (length (x tp))].
Proof.
  intros Hcodes HN.
  destruct (process_text_ok _ _ _ _ _ Hcodes) as (phones & _ & Hpt).
  assert (Hlen : length (intersperse codes 0%Z) = 2 * length codes - 1).
  { apply intersperse_length. destruct codes; [cbn in HN; lia | discriminate]. }
  eexists. split; [exact Hpt |]. cbn [x x_lengths].
  split; [exact Hlen |]. split; [| split; [| reflexivity]].
  - intros k Hk Heven. apply Nat.even_spec in Heven as [m ->].
    replace (2 * m - 1) with (2 * (m - 1) + 1) by lia.
    apply intersperse_lookup_separator. lia.
  - intros k Hk Hodd. apply Nat.odd_spec in Hodd as [m ->].
    replace (2 * m + 1 - 1) with (2 * m) by lia.
    rewrite intersperse_lookup_symbol. f_equal.
    symmetry. rewrite Nat.mul_comm. apply Nat.div_mul. discriminate.
Qed.

Lemma process_text_interspersed_witness :
  ∃ tp, process_text ex_symbols ex_cleaners "ab a" "catalan_cleaners" = Ok tp
    ∧ length (x tp) = 2 * 4 - 1
    ∧ (∀ k, (1 ≤ k ≤ length (x tp))%nat → Nat.even k = true →
         x tp !! (k - 1) = Some 0%Z)
    ∧ (∀ k, (1 ≤ k ≤ length (x tp))%nat → Nat.odd k = true →
         x tp !! (k - 1) = [1; 2; 3; 1]%Z !! ((k - 1) / 2))
    ∧ x_lengths tp = [Z.of_nat (length (x tp))].
Proof.
  apply (process_text_interspersed ex_symbols ex_cleaners "ab a"
           "catalan_cleaners" [1; 2; 3; 1]%Z).
  - reflexivity.
  - cbn. lia.
Defined.

(** C3, as stated, fails.  With the table [_ a b <space>] and an identity
    cleaner, the text "ab" is encoded as [1; 2], whose decoding is "ab",
    yet the [x_phones] that [process_text] returns is "a_b": the function
    decodes the sequence after the separators were inserted. *)
Lemma process_text_phones_not_raw :
  ∃ tp codes raw,
    process_text ex_symbols ex_cleaners "ab" "catalan_cleaners" = Ok tp
    ∧ text_to_sequence ex_symbols ex_cleaners "ab" ["catalan_cleaners"] = Ok codes
    ∧ sequence_to_text ex_symbols codes = Ok raw
    ∧ x_phones tp ≠ raw.
Proof.
  eexists _, _, _. split; [reflexivity |]. split; [reflexivity |].
  split; [reflexivity |]. discriminate.
Qed.

(** C3, amended.  For every text and registered profile whose cleaner
    output lies in the vocabulary, [x_phones] is the decoding of the
    interspersed sequence [x] (the codes after separator insertion).
    Decoding is consistent with encoding: every code the encoder emits is
    decodable, and decoding the raw codes gives back the cleaned text. *)
Theorem process_text_phones
    (symbols : list ascii) (cleaners : gmap string (string → string))
    (text cleaner : string) (codes : list Z) :
  text_to_sequence symbols cleaners text [cleaner] = Ok codes →
  ∃ tp f,
    process_text symbols cleaners text cleaner = Ok tp
    ∧ x tp = intersperse codes 0%Z
    ∧ sequence_to_text symbols (x tp) = Ok (x_phones tp)
    ∧ Forall (λ k, ∃ c, id_to_symbol symbols k = Some c) codes
    ∧ cleaners !! cleaner = Some f
    ∧ sequence_to_text symbols codes = Ok (f text).
Proof.
  intros Hcodes.
  destruct (process_text_ok _ _ _ _ _ Hcodes) as (phones & Hphones & Hpt).
  destruct (text_to_sequence_inv _ _ _ _ _ Hcodes) as (f & Hf & Henc).
  eexists _, f. split; [exact Hpt |]. cbn [x x_phones].
  split; [reflexivity |]. split; [exact Hphones |].
  split; [eapply encode_symbols_decodable, Henc |].
  split; [exact Hf |].
  rewrite (encode_symbols_decode _ _ _ Henc).
  now rewrite string_of_list_ascii_of_string.
Qed.

Lemma process_text_phones_witness :
  ∃ tp f,
    process_text ex_symbols ex_cleaners "ab" "catalan_cleaners" = Ok tp
    ∧ x tp = intersperse [1; 2]%Z 0%Z
    ∧ sequence_to_text ex_symbols (x tp) = Ok (x_phones tp)
    ∧ Forall (λ k, ∃ c, id_to_symbol ex_symbols k = Some c) [1; 2]%Z
    ∧ ex_cleaners !! "catalan_cleaners" = Some f
    ∧ sequence_to_text ex_symbols [1; 2]%Z = Ok (f "ab").
Proof.
  apply (process_text_phones ex_symbols ex_cleaners "ab" "catalan_cleaners").
  reflexivity.
Defined.

(** ** The file-system primitives *)

Section FileSystem.

Implicit Types (fs : gmap path node) (p done todo folder : path).

Lemma mkdir_parents_changes done todo fs fs' p :
  mkdir_parents done todo fs = Ok fs' →
  fs' !! p = fs !! p
  ∨ (fs !! p = None ∧ fs' !! p = Some Dir ∧ p `prefix_of` done ++ todo).
Proof.
  revert done fs. induction todo as [| c rest IH]; intros done fs Hmk.
  - injection Hmk as <-. now left.
  - cbn in Hmk. destruct (fs !! (done ++ [c])) as [[| content] |] eqn:Hd.
    + destruct (IH _ _ Hmk) as [Heq | (Hnone & Hdir & Hpre)]; [now left |].
      right. rewrite <- app_assoc in Hpre. easy.
    + destruct rest; discriminate.
    + destruct (IH _ _ Hmk) as [Heq | (Hnone & Hdir & Hpre)].
      * destruct (decide (p = done ++ [c])) as [-> | Hne].
        -- right. rewrite lookup_insert_eq in Heq.
           split; [exact Hd |]. split; [exact Heq |].
           now apply prefix_app, prefix_cons, prefix_nil.
        -- left. now rewrite lookup_insert_ne in Heq.
      * right. rewrite <- app_assoc in Hpre.
        destruct (decide (p = done ++ [c])) as [-> | Hne].
        -- now rewrite lookup_insert_eq in Hnone.
        -- rewrite lookup_insert_ne in Hnone by easy. easy.
Qed.

Lemma mkdir_parents_keeps_dirs done todo fs fs' p :
  mkdir_parents done todo fs = Ok fs' → fs !! p = Some Dir → fs' !! p = Some Dir.
Proof.
  intros Hmk Hp.
  destruct (mkdir_parents_changes _ _ _ _ p Hmk) as [-> | (_ & Hdir & _)]; easy.
Qed.

Lemma mkdir_parents_dirs done todo fs fs' (k : nat) :
  mkdir_parents done todo fs = Ok fs' →
  0 < k ≤ length todo → fs' !! (done ++ take k todo) = Some Dir.
Proof.
  revert done fs k. induction todo as [| c rest IH]; intros done fs k Hmk Hk.
  - cbn in Hk. lia.
  - destruct k as [| k]; [lia |]. cbn [take].
    replace (done ++ c :: take k rest) with ((done ++ [c]) ++ take k rest)
      by now rewrite <- app_assoc.
    assert (Hstep : ∃ fs1, mkdir_parents (done ++ [c]) rest fs1 = Ok fs'
                           ∧ fs1 !! (done ++ [c]) = Some Dir).
    { cbn in Hmk. destruct (fs !! (done ++ [c])) as [[| content] |] eqn:Hd.
      - eauto.
      - destruct rest; discriminate.
      - eexists. split; [exact Hmk |]. apply lookup_insert_eq. }
    destruct Hstep as (fs1 & Hmk1 & Hd1).
    destruct k as [| k].
    + rewrite take_0, app_nil_r. eapply mkdir_parents_keeps_dirs; eassumption.
    + eapply IH; [exact Hmk1 |]. cbn [length] in Hk. lia.
Qed.

Lemma mkdir_parents_dir todo fs fs' :
  mkdir_parents [] todo fs = Ok fs' → todo ≠ [] → fs' !! todo = Some Dir.
Proof.
  intros Hmk Hne.
  pose proof (mkdir_parents_dirs [] todo fs fs' (length todo) Hmk) as Hd.
  rewrite firstn_all in Hd. apply Hd.
  destruct todo; [contradiction | cbn; lia].
Qed.

Lemma mkdir_parents_existing done todo fs :
  (∀ k, 0 < k ≤ length todo → fs !! (done ++ take k todo) = Some Dir) →
  mkdir_parents done todo fs = Ok fs.
Proof.
  revert done. induction todo as [| c rest IH]; intros done Hall; [reflexivity |].
  assert (H1 : fs !! (done ++ [c]) = Some Dir).
  { apply (Hall 1). cbn [length]. lia. }
  cbn. rewrite H1.
  apply IH. intros k Hk.
  rewrite <- app_assoc. apply (Hall (S k)). cbn [length]. lia.
Qed.

(** Creating the directories a second time changes nothing. *)
Lemma mkdir_parents_idempotent todo fs fs' :
  mkdir_parents [] todo fs = Ok fs' → mkdir_parents [] todo fs' = Ok fs'.
Proof.
  intros Hmk. apply mkdir_parents_existing.
  intros k Hk. eapply mkdir_parents_dirs; eassumption.
Qed.

Lemma write_file_in_dir folder (name : string) (c : file_content) fs :
  fs !! folder = Some Dir →
  write_file (folder ++ [name]) c fs =
    match fs !! (folder ++ [name]) with
    | Some Dir => Raise (IsADirectoryError (folder ++ [name]))
    | _ => Ok (<[folder ++ [name] := File c]> fs)
    end.
Proof.
  intros Hdir. unfold write_file. rewrite removelast_last.
  destruct (decide (folder = [])); [reflexivity |]. now rewrite Hdir.
Qed.

End FileSystem.

(** ** Evaluating the pipeline *)

Section Worlds.

Implicit Types (w : world) (evs : list event) (fs : gmap path node).

Lemma log_log evs1 evs2 w : log evs2 (log evs1 w) = log (evs1 ++ evs2) w.
Proof. unfold log. cbn. now rewrite app_assoc. Qed.

Lemma advance_log evs w : advance (log evs w) = log evs (advance w).
Proof. reflexivity. Qed.

Lemma set_fs_log fs evs w : set_fs fs (log evs w) = log evs (set_fs fs w).
Proof. reflexivity. Qed.

Lemma w_fs_log evs w : w_fs (log evs w) = w_fs w.
Proof. reflexivity. Qed.

Lemma bind_lift {A B : Type} (r : result A) (k : A → M B) w :
  (lift r ≫= k) w = match r with Ok a => k a w | Raise e => (Raise e, w) end.
Proof. unfold mbind, M_bind, lift. now destruct r. Qed.

Lemma bind_emit {B : Type} (e : event) (k : unit → M B) w :
  (emit e ≫= k) w = k () (log [e] w).
Proof. reflexivity. Qed.

Lemma bind_print {B : Type} (m : message) (k : unit → M B) w :
  (print m ≫= k) w = k () (log [EvPrint m] w).
Proof. reflexivity. Qed.

Lemma bind_run {A B : Type} (m : M A) (k : A → M B) w :
  (m ≫= k) w =
    match m w with
    | (Ok a, w') => k a w'
    | (Raise e, w') => (Raise e, w')
    end.
Proof. reflexivity. Qed.

End Worlds.

Lemma save_to_folder_eval (output : synth_output) (waveform : audio)
    (folder : path) (w : world) :
  save_to_folder "synth" output waveform folder w =
    match mkdir_parents [] folder (w_fs w) with
    | Raise e => (Raise e, w)
    | Ok fs1 =>
        match write_file (folder ++ ["synth.npy"]) (NpyArray (mel output)) fs1 with
        | Raise e => (Raise e, set_fs fs1 w)
        | Ok fs2 =>
            match write_file (folder ++ ["synth.wav"])
                    (WavFile waveform 22050 "PCM_24") fs2 with
            | Raise _ =>
                (Raise (LibsndfileError (folder ++ ["synth.wav"])), set_fs fs2 w)
            | Ok fs3 => (Ok (), set_fs fs3 w)
            end
        end
    end.
Proof.
  unfold save_to_folder, mkdir, np_save, sf_write, path_div.
  rewrite last_snoc, removelast_last.
  unfold mbind, M_bind, get_fs, put_fs, lift.
  destruct (mkdir_parents [] folder (w_fs w)) as [fs1 | e]; [| reflexivity].
  cbn -[write_file].
  destruct (write_file _ _ fs1) as [fs2 | e]; [| reflexivity].
  cbn -[write_file].
  destruct (write_file _ _ fs2) as [fs3 | e]; reflexivity.
Qed.

Section PipelineFacts.

Variable symbols : list ascii.
Variable cleaners : gmap string (string → string).
Variable clock : nat → Z.
Variable g : globals.

Lemma bind_now {B : Type} (k : Z → M B) (w : world) :
  (datetime_now clock ≫= k) w
  = k (clock (w_ticks w)) (log [EvNow (clock (w_ticks w))] (advance w)).
Proof. reflexivity. Qed.

Lemma synthesise_eval (text : string) (spks : option (list Z)) (n_timesteps : Z)
    (temperature length_scale : Q) (cleaner : string) (w : world) :
  synthesise symbols cleaners clock g text spks n_timesteps temperature
    length_scale cleaner w =
    match process_text symbols cleaners text cleaner with
    | Raise e => (Raise e, w)
    | Ok tp =>
        let t0 := clock (w_ticks w) in
        let args := synthesise_call tp spks n_timesteps temperature length_scale in
        let w1 := log [EvNow t0; EvSynthesise args] (advance w) in
        match model_synthesise (model g) args with
        | Raise e => (Raise e, w1)
        | Ok o => (Ok {| mel := o_mel o; rtf := o_rtf o;
                         start_t := t0; processed := tp |}, w1)
        end
    end.
Proof.
  unfold synthesise. rewrite bind_lift.
  destruct (process_text symbols cleaners text cleaner) as [tp | e]; [| reflexivity].
  rewrite bind_now. cbv zeta. rewrite bind_emit, bind_lift, log_log. cbn [app].
  destruct (model_synthesise _ _) as [o | e]; reflexivity.
Qed.

Lemma tts_eval (text : string) (spk_id n_timesteps : Z)
    (length_scale temperature : Q) (output_path : option path)
    (cleaner : string) (w : world) :
  tts symbols cleaners clock g text spk_id n_timesteps length_scale temperature
    output_path cleaner w =
    match speaker_tensor spk_id with
    | Raise e => (Raise e, w)
    | Ok n_spk =>
    match process_text symbols cleaners text cleaner with
    | Raise e => (Raise e, w)
    | Ok tp =>
    let t0 := clock (w_ticks w) in
    let args := synthesise_call tp n_spk n_timesteps temperature length_scale in
    let w1 := log [EvNow t0; EvSynthesise args] (advance w) in
    match model_synthesise (model g) args with
    | Raise e => (Raise e, w1)
    | Ok o =>
    let shape := MsgMelShape (length (o_mel o)) (mel_frames (o_mel o)) in
    let w2 := log [EvPrint shape; EvDecode (o_mel o)] w1 in
    match vocoder_decode (vocos_vocoder g) (o_mel o) with
    | Raise e => (Raise e, w2)
    | Ok row =>
    let t1 := clock (S (w_ticks w)) in
    let w3 := log [EvNow t1] (advance w2) in
    match shape_last (squeeze row) with
    | Raise e => (Raise e, w3)
    | Ok samples =>
    match true_div (total_seconds (t1 - t0) * 22050) samples with
    | Raise e => (Raise e, w3)
    | Ok rtf_w =>
    let w4 := log (report (x_orig tp) (x_phones tp) (o_rtf o) rtf_w) w3 in
    match os_path_join output_path ("spk_" +:+ pretty spk_id) with
    | Raise e => (Raise e, w4)
    | Ok folder =>
    let output := {| mel := o_mel o; rtf := o_rtf o;
                     start_t := t0; processed := tp |} in
    match save_to_folder "synth" output (squeeze row) folder w4 with
    | (Raise e, w5) => (Raise e, w5)
    | (Ok _, w5) => (Ok (), log (summary n_timesteps (o_rtf o) rtf_w) w5)
    end end end end end end end end.
Proof.
  unfold tts. rewrite bind_lift.
  destruct (speaker_tensor spk_id) as [n_spk | e]; [| reflexivity].
  rewrite bind_run, synthesise_eval.
  destruct (process_text symbols cleaners text cleaner) as [tp | e]; [| reflexivity].
  cbv zeta.
  destruct (model_synthesise _ _) as [o | e]; [| reflexivity].
  rewrite bind_print. unfold to_vocos_waveform.
  rewrite bind_run, bind_emit, bind_lift, !log_log. cbn [app mel].
  destruct (vocoder_decode _ _) as [row | e]; [| reflexivity].
  unfold mret, M_ret. rewrite bind_now, bind_lift.
  cbn [w_ticks log advance start_t].
  destruct (shape_last (squeeze row)) as [samples | e]; [| reflexivity].
  rewrite bind_lift.
  destruct (true_div _ samples) as [rtf_w | e]; [| reflexivity].
  rewrite !bind_print, bind_lift, !log_log. cbn [app processed rtf].
  destruct (os_path_join output_path _) as [folder | e]; [| reflexivity].
  rewrite bind_run. fold (report (x_orig tp) (x_phones tp) (o_rtf o) rtf_w).
  cbv zeta.
  destruct (save_to_folder _ _ _ _ _) as [[[] | e] w5]; [| reflexivity].
  rewrite !bind_print. unfold print, emit. rewrite !log_log. reflexivity.
Qed.

End PipelineFacts.

(** ** Runs of [tts] *)

Lemma speaker_tensor_in_range (spk_id : Z) :
  (spk_id ≤ int64_max)%Z →
  speaker_tensor spk_id = Ok (if (0 <=? spk_id)%Z then Some [spk_id] else None).
Proof.
  intros Hmax. unfold speaker_tensor.
  destruct (Z.leb_spec 0 spk_id) as [Hpos | Hneg]; [| reflexivity].
  unfold tensor_long, fits_int64.
  assert (Hmin : (int64_min <=? spk_id)%Z = true).
  { apply Z.leb_le. unfold int64_min. lia. }
  rewrite Hmin. apply Z.leb_le in Hmax. rewrite Hmax. reflexivity.
Qed.

Lemma speaker_tensor_overflow (spk_id : Z) :
  (int64_max < spk_id)%Z → speaker_tensor spk_id = Raise (TensorOverflow spk_id).
Proof.
  intros Hmax. unfold speaker_tensor.
  destruct (Z.leb_spec 0 spk_id) as [Hpos | Hneg].
  - unfold tensor_long, fits_int64.
    apply Z.leb_gt in Hmax. rewrite Hmax. now rewrite andb_false_r.
  - unfold int64_max in Hmax. lia.
Qed.

Lemma save_to_folder_keeps_trace (output : synth_output) (waveform : audio)
    (folder : path) (w : world) :
  w_trace (save_to_folder "synth" output waveform folder w).2 = w_trace w
  ∧ w_ticks (save_to_folder "synth" output waveform folder w).2 = w_ticks w.
Proof.
  rewrite save_to_folder_eval.
  destruct (mkdir_parents [] folder (w_fs w)) as [fs1 | e]; [| easy].
  destruct (write_file _ _ fs1) as [fs2 | e]; [| easy].
  destruct (write_file _ _ fs2) as [fs3 | e]; easy.
Qed.

Section Runs.

Variable symbols : list ascii.
Variable cleaners : gmap string (string → string).
Variable clock : nat → Z.
Variable g : globals.

Lemma synthesise_text_failure (text cleaner : string) (e0 : exn)
    (spks : option (list Z)) (n_timesteps : Z) (temperature length_scale : Q)
    (w : world) :
  process_text symbols cleaners text cleaner = Raise e0 →
  synthesise symbols cleaners clock g text spks n_timesteps temperature
    length_scale cleaner w = (Raise e0, w).
Proof. intros Hpt. rewrite synthesise_eval, Hpt. reflexivity. Qed.

Lemma tts_text_failure (text cleaner : string) (e0 : exn)
    (spk_id n_timesteps : Z) (length_scale temperature : Q)
    (output_path : option path) (w : world) :
  process_text symbols cleaners text cleaner = Raise e0 →
  ∃ e, tts symbols cleaners clock g text spk_id n_timesteps length_scale
         temperature output_path cleaner w = (Raise e, w)
       ∧ ((spk_id ≤ int64_max)%Z → e = e0).
Proof.
  intros Hpt. rewrite tts_eval, Hpt.
  destruct (Z.le_gt_cases spk_id int64_max) as [Hle | Hgt].
  - rewrite (speaker_tensor_in_range _ Hle). eauto.
  - rewrite (speaker_tensor_overflow spk_id) by lia.
    eexists. split; [reflexivity |]. lia.
Qed.

(** What a run that returns normally went through. *)
Lemma tts_ok_inv (text : string) (spk_id n_timesteps : Z)
    (length_scale temperature : Q) (output_path : option path)
    (cleaner : string) (w w' : world) :
  tts symbols cleaners clock g text spk_id n_timesteps length_scale temperature
    output_path cleaner w = (Ok (), w') →
  ∃ n_spk tp o row samples rtf_w root fs1 fs2 fs3,
    let t0 := clock (w_ticks w) in
    let t1 := clock (S (w_ticks w)) in
    let args := synthesise_call tp n_spk n_timesteps temperature length_scale in
    let folder := root ++ ["spk_" +:+ pretty spk_id] in
    speaker_tensor spk_id = Ok n_spk
    ∧ process_text symbols cleaners text cleaner = Ok tp
    ∧ model_synthesise (model g) args = Ok o
    ∧ vocoder_decode (vocos_vocoder g) (o_mel o) = Ok row
    ∧ shape_last (squeeze row) = Ok samples
    ∧ true_div (total_seconds (t1 - t0) * 22050) samples = Ok rtf_w
    ∧ output_path = Some root
    ∧ mkdir_parents [] folder (w_fs w) = Ok fs1
    ∧ write_file (folder ++ ["synth.npy"]) (NpyArray (o_mel o)) fs1 = Ok fs2
    ∧ write_file (folder ++ ["synth.wav"])
        (WavFile (squeeze row) 22050 "PCM_24") fs2 = Ok fs3
    ∧ w' = log (run_events t0 args o t1 tp rtf_w n_timesteps)
             (set_fs fs3 (advance (advance w))).
Proof.
  rewrite tts_eval.
  destruct (speaker_tensor spk_id) as [n_spk | e]; [| discriminate].
  destruct (process_text symbols cleaners text cleaner) as [tp | e]; [| discriminate].
  cbv zeta.
  destruct (model_synthesise _ _) as [o | e] eqn:Hsynth; [| discriminate].
  destruct (vocoder_decode _ _) as [row | e] eqn:Hdec; [| discriminate].
  destruct (shape_last (squeeze row)) as [samples | e] eqn:Hshape; [| discriminate].
  destruct (true_div _ samples) as [rtf_w | e] eqn:Hdiv; [| discriminate].
  destruct output_path as [root |]; [| discriminate].
  cbn [os_path_join]. rewrite save_to_folder_eval. cbn [w_fs log advance mel].
  destruct (mkdir_parents _ _ _) as [fs1 | e] eqn:Hmk; [| discriminate].
  destruct (write_file _ _ fs1) as [fs2 | e] eqn:Hnpy; [| discriminate].
  destruct (write_file _ _ fs2) as [fs3 | e] eqn:Hwav; [| discriminate].
  intros [= <-].
  exists n_spk, tp, o, row, samples, rtf_w, root, fs1, fs2, fs3.
  cbv zeta. repeat (split; [first [reflexivity | eassumption] |]).
  unfold run_events.
  rewrite !set_fs_log, !log_log, !advance_log, !set_fs_log, !log_log.
  rewrite <- !app_assoc. reflexivity.
Qed.

End Runs.

(** ** Failure ordering *)

(** C4.  Failure ordering.  With an unregistered profile, text processing
    raises [UnknownProfile]; [synthesise] fails with it and leaves the
    world as it was, so the failure comes before any call of the acoustic
    model; [tts] aborts with the world unchanged too, so that neither
    [model.synthesise] nor [vocoder.decode] is ever called, and the
    exception it raises is [UnknownProfile] whenever the speaker tensor
    of line 80 could be built. *)
Theorem unknown_profile_fails_first
    (symbols : list ascii) (cleaners : gmap string (string → string))
    (clock : nat → Z) (g : globals) (text cleaner : string) :
  cleaners !! cleaner = None →
  process_text symbols cleaners text cleaner = Raise (UnknownProfile cleaner)
  ∧ (∀ spks n_timesteps temperature length_scale w,
       synthesise symbols cleaners clock g text spks n_timesteps temperature
         length_scale cleaner w = (Raise (UnknownProfile cleaner), w))
  ∧ (∀ spk_id n_timesteps length_scale temperature output_path w,
       ∃ e w',
         tts symbols cleaners clock g text spk_id n_timesteps length_scale
           temperature output_path cleaner w = (Raise e, w')
         ∧ w' = w
         ∧ synthesise_calls (w_trace w') = synthesise_calls (w_trace w)
         ∧ decode_calls (w_trace w') = decode_calls (w_trace w)
         ∧ ((spk_id ≤ int64_max)%Z → e = UnknownProfile cleaner)).
Proof.
  intros Hnone.
  pose proof (process_text_unregistered symbols cleaners text cleaner Hnone) as Hpt.
  split; [exact Hpt |]. split.
  - intros. now apply synthesise_text_failure.
  - intros spk_id n_timesteps length_scale temperature output_path w.
    destruct (tts_text_failure symbols cleaners clock g text cleaner _ spk_id
                n_timesteps length_scale temperature output_path w Hpt)
      as (e & Hrun & He).
    exists e, w. auto.
Qed.

Lemma unknown_profile_fails_first_witness :
  ex_cleaners !! "klingon_cleaners" = None
  ∧ tts ex_symbols ex_cleaners ex_clock ex_globals "ab" 2 80 (9 # 10) (7 # 10)
      (Some ["out"]) "klingon_cleaners" ex_world
    = (Raise (UnknownProfile "klingon_cleaners"), ex_world).
Proof.
  split; [reflexivity |].
  destruct (unknown_profile_fails_first ex_symbols ex_cleaners ex_clock ex_globals
              "ab" "klingon_cleaners" eq_refl) as (_ & _ & Htts).
  destruct (Htts 2%Z 80%Z (9 # 10)%Q (7 # 10)%Q (Some ["out"]) ex_world)
    as (e & w' & Hrun & -> & _ & _ & He).
  rewrite Hrun, He; [reflexivity |]. unfold int64_max. lia.
Defined.

(** ** The real-time factor *)

Lemma rtf_below_one (elapsed : Q) (n : Z) :
  (0 < n)%Z →
  (elapsed * 22050 / inject_Z n < 1 ↔ elapsed < inject_Z n / 22050)%Q.
Proof.
  intros Hn.
  assert (Hq : (0 < inject_Z n)%Q) by (unfold Qlt; cbn; lia).
  assert (Hq0 : ¬ (inject_Z n == 0)%Q) by (intros H0; rewrite H0 in Hq; discriminate).
  assert (Hr : (0 < 22050)%Q) by reflexivity.
  assert (Hr0 : ¬ (22050 == 0)%Q) by discriminate.
  rewrite <- (Qmult_lt_r _ _ _ Hq).
  rewrite <- (Qmult_lt_r elapsed _ _ Hr).
  setoid_replace (elapsed * 22050 / inject_Z n * inject_Z n)%Q
    with (elapsed * 22050)%Q using relation Qeq by (field; exact Hq0).
  setoid_replace (inject_Z n / 22050 * 22050)%Q with (inject_Z n)
    using relation Qeq by (field; exact Hr0).
  now rewrite Qmult_1_l.
Qed.

Lemma shape_last_samples (row : list Q) (n : Z) :
  shape_last (squeeze row) = Ok n →
  squeeze row = Samples row ∧ n = Z.of_nat (length row).
Proof.
  destruct row as [| s [| s' rest]]; cbn; intros [= <-]; easy.
Qed.

Lemma true_div_ok (a r : Q) (n : Z) :
  true_div a n = Ok r → n ≠ 0%Z ∧ r = (a / inject_Z n)%Q.
Proof.
  unfold true_div. destruct (Z.eqb_spec n 0); [discriminate |].
  intros [= <-]. easy.
Qed.

(** C5.  RTF computation.  The clock is read only once text processing
    has completed: a run whose text processing fails never reads it.  In
    a run that returns normally the clock is read exactly twice: [t0]
    before [model.synthesise] is called on the processed text, [t1] after
    [vocoder.decode] has returned.  The waveform real-time factor that is
    reported is [total_elapsed * 22050 / sample_count] with
    [total_elapsed = t1 - t0] in seconds, and it is below 1 exactly when
    the elapsed time is shorter than the playing time of the waveform,
    [sample_count / 22050] seconds. *)
Theorem waveform_rtf
    (symbols : list ascii) (cleaners : gmap string (string → string))
    (clock : nat → Z) (g : globals)
    (text : string) (spk_id n_timesteps : Z) (length_scale temperature : Q)
    (output_path : option path) (cleaner : string) (w w' : world)
    (r : result unit) :
  tts symbols cleaners clock g text spk_id n_timesteps length_scale temperature
    output_path cleaner w = (r, w') →
  (∀ e, process_text symbols cleaners text cleaner = Raise e →
        w_ticks w' = w_ticks w ∧ w_trace w' = w_trace w)
  ∧ (r = Ok () →
     ∃ n_spk tp o (samples : list Q),
       let t0 := clock (w_ticks w) in
       let t1 := clock (S (w_ticks w)) in
       let total_elapsed := total_seconds (t1 - t0) in
       let sample_count := Z.of_nat (length samples) in
       let rtf_w := (total_elapsed * 22050 / inject_Z sample_count)%Q in
       let args := synthesise_call tp n_spk n_timesteps temperature length_scale in
       process_text symbols cleaners text cleaner = Ok tp
       ∧ model_synthesise (model g) args = Ok o
       ∧ vocoder_decode (vocos_vocoder g) (o_mel o) = Ok samples
       ∧ (0 < sample_count)%Z
       ∧ w_ticks w' = S (S (w_ticks w))
       ∧ w_trace w' =
           w_trace w
           ++ [ EvNow t0; EvSynthesise args;
                EvPrint (MsgMelShape (length (o_mel o)) (mel_frames (o_mel o)));
                EvDecode (o_mel o); EvNow t1 ]
           ++ report (x_orig tp) (x_phones tp) (o_rtf o) rtf_w
           ++ summary n_timesteps (o_rtf o) rtf_w
       ∧ In (EvPrint (MsgRtfWaveform rtf_w))
            (report (x_orig tp) (x_phones tp) (o_rtf o) rtf_w)
       ∧ (rtf_w < 1 ↔ total_elapsed < inject_Z sample_count / 22050)%Q).
Proof.
  intros Hrun. split.
  { intros e Hpt.
    destruct (tts_text_failure symbols cleaners clock g text cleaner e spk_id
                n_timesteps length_scale temperature output_path w Hpt)
      as (e' & Hfail & _).
    rewrite Hfail in Hrun. now injection Hrun as _ <-. }
  intros ->.
  apply tts_ok_inv in Hrun
    as (n_spk & tp & o & row & n & rtf_w & root & fs1 & fs2 & fs3 & Hrun).
  cbv zeta in Hrun.
  destruct Hrun as (_ & Hpt & Hsynth & Hdec & Hshape & Hdiv & _ & _ & _ & _ & ->).
  apply shape_last_samples in Hshape as [_ ->].
  apply true_div_ok in Hdiv as [Hn ->].
  exists n_spk, tp, o, row. cbv zeta.
  split; [exact Hpt |]. split; [exact Hsynth |]. split; [exact Hdec |].
  assert (Hpos : (0 < Z.of_nat (length row))%Z) by lia.
  split; [exact Hpos |]. split; [reflexivity |]. split; [reflexivity |].
  split.
  - unfold report. cbn. tauto.
  - now apply rtf_below_one.
Qed.

Lemma waveform_rtf_witness :
  ∃ w' tp samples,
    tts ex_symbols ex_cleaners ex_clock ex_globals "ab" 2 80 (9 # 10) (7 # 10)
      (Some ["out"]) "catalan_cleaners" ex_world = (Ok (), w')
    ∧ process_text ex_symbols ex_cleaners "ab" "catalan_cleaners" = Ok tp
    ∧ vocoder_decode ex_vocoder ex_mel = Ok samples
    ∧ w_ticks w' = 2
    ∧ In (EvPrint (MsgRtfWaveform
                     (total_seconds (ex_clock 1 - ex_clock 0) * 22050
                      / inject_Z (Z.of_nat (length samples)))%Q))
         (w_trace w').
Proof.
  pose (run := tts ex_symbols ex_cleaners ex_clock ex_globals "ab" 2 80 (9 # 10)
                 (7 # 10) (Some ["out"]) "catalan_cleaners" ex_world).
  assert (Hrun : run = (Ok (), run.2)) by (vm_compute; reflexivity).
  destruct (waveform_rtf _ _ _ _ _ _ _ _ _ _ _ _ _ _ Hrun) as [_ Hok].
  destruct (Hok eq_refl)
    as (n_spk & tp & o & samples & Hpt & Hsynth & Hdec & _ & Hticks & Htrace & Hin & _).
  injection Hsynth as <-.
  exists run.2, tp, samples.
  split; [exact Hrun |]. split; [exact Hpt |]. split; [exact Hdec |].
  split; [exact Hticks |].
  rewrite Htrace. apply in_or_app. right. apply in_or_app. right.
  apply in_or_app. left. exact Hin.
Defined.

(** ** The output sink *)

Lemma path_div_neq (folder : path) (name : string) : folder ≠ folder ++ [name].
Proof.
  intros Heq. apply (f_equal length) in Heq. rewrite length_app in Heq.
  cbn in Heq. lia.
Qed.

Lemma path_div_nonempty (folder : path) (name : string) : folder ++ [name] ≠ [].
Proof. destruct folder; discriminate. Qed.

Lemma path_div_inj (folder : path) (a b : string) :
  folder ++ [a] = folder ++ [b] → a = b.
Proof. intros Heq. apply app_inv_head in Heq. now injection Heq. Qed.

(** The file system after the three steps of [save_to_folder]. *)
Lemma save_steps_inv (folder : path) (c1 c2 : file_content)
    (fs fs1 fs2 fs3 : gmap path node) :
  folder ≠ [] →
  mkdir_parents [] folder fs = Ok fs1 →
  write_file (folder ++ ["synth.npy"]) c1 fs1 = Ok fs2 →
  write_file (folder ++ ["synth.wav"]) c2 fs2 = Ok fs3 →
  fs1 !! folder = Some Dir
  ∧ fs2 = <[folder ++ ["synth.npy"] := File c1]> fs1
  ∧ fs3 = <[folder ++ ["synth.wav"] := File c2]> fs2.
Proof.
  intros Hne Hmk Hnpy Hwav.
  pose proof (mkdir_parents_dir _ _ _ Hmk Hne) as Hdir.
  rewrite (write_file_in_dir _ _ _ _ Hdir) in Hnpy.
  assert (Hfs2 : fs2 = <[folder ++ ["synth.npy"] := File c1]> fs1).
  { destruct (fs1 !! (folder ++ ["synth.npy"])) as [[| c] |];
      [discriminate | |]; now injection Hnpy. }
  assert (Hdir2 : fs2 !! folder = Some Dir).
  { rewrite Hfs2, lookup_insert_ne; [exact Hdir |].
    intros Heq. now apply (path_div_neq folder "synth.npy"). }
  rewrite (write_file_in_dir _ _ _ _ Hdir2) in Hwav.
  split; [exact Hdir |]. split; [exact Hfs2 |].
  destruct (fs2 !! (folder ++ ["synth.wav"])) as [[| c] |];
    [discriminate | |]; now injection Hwav.
Qed.

(** C6, as stated, fails.  On a disk where the name [synth.wav] of the
    speaker's directory is taken by a directory, the run writes the mel
    file and then aborts in [sf.write]: the mel file, which was not there
    before, is left on disk and there is no waveform file. *)
Lemma mel_left_without_waveform :
  ∃ e w',
    tts ex_symbols ex_cleaners ex_clock ex_globals "ab" 2 80 (9 # 10) (7 # 10)
      (Some ["out"]) "catalan_cleaners" ex_world_blocked = (Raise e, w')
    ∧ w_fs ex_world_blocked !! ["out"; "spk_2"; "synth.npy"] = None
    ∧ w_fs w' !! ["out"; "spk_2"; "synth.npy"] = Some (File (NpyArray ex_mel))
    ∧ w_fs w' !! ["out"; "spk_2"; "synth.wav"] = Some Dir.
Proof.
  eexists _, _. split; [vm_compute; reflexivity |].
  split; [reflexivity |]. split; reflexivity.
Qed.

(** C6, amended.  No output artifact is written unless both the
    mel-spectrogram and the waveform have been produced: a run that
    changes the file system at all has gone through text processing,
    acoustic synthesis, vocoder decoding and the computation of the
    real-time factor successfully and has an output path, so a failure of
    any of these stages aborts the run with the disk untouched; and after
    a run that returns normally the mel file and the waveform file are
    both on disk. *)
Theorem output_written_after_both
    (symbols : list ascii) (cleaners : gmap string (string → string))
    (clock : nat → Z) (g : globals)
    (text : string) (spk_id n_timesteps : Z) (length_scale temperature : Q)
    (output_path : option path) (cleaner : string) (w w' : world)
    (r : result unit) :
  tts symbols cleaners clock g text spk_id n_timesteps length_scale temperature
    output_path cleaner w = (r, w') →
  (w_fs w' ≠ w_fs w →
     ∃ n_spk tp o row samples rtf_w root,
       speaker_tensor spk_id = Ok n_spk
       ∧ process_text symbols cleaners text cleaner = Ok tp
       ∧ model_synthesise (model g)
           (synthesise_call tp n_spk n_timesteps temperature length_scale) = Ok o
       ∧ vocoder_decode (vocos_vocoder g) (o_mel o) = Ok row
       ∧ shape_last (squeeze row) = Ok samples
       ∧ true_div (total_seconds (clock (S (w_ticks w)) - clock (w_ticks w)) * 22050)
           samples = Ok rtf_w
       ∧ output_path = Some root)
  ∧ (r = Ok () →
     ∃ n_spk tp o row root,
       process_text symbols cleaners text cleaner = Ok tp
       ∧ model_synthesise (model g)
           (synthesise_call tp n_spk n_timesteps temperature length_scale) = Ok o
       ∧ vocoder_decode (vocos_vocoder g) (o_mel o) = Ok row
       ∧ output_path = Some root
       ∧ w_fs w' !! (root ++ ["spk_" +:+ pretty spk_id] ++ ["synth.npy"])
         = Some (File (NpyArray (o_mel o)))
       ∧ w_fs w' !! (root ++ ["spk_" +:+ pretty spk_id] ++ ["synth.wav"])
         = Some (File (WavFile (squeeze row) 22050 "PCM_24"))).
Proof.
  intros Hrun. split.
  - intros Hfs. rewrite tts_eval in Hrun.
    destruct (speaker_tensor spk_id) as [n_spk | e];
      [| injection Hrun as _ <-; contradiction].
    destruct (process_text symbols cleaners text cleaner) as [tp | e];
      [| injection Hrun as _ <-; contradiction].
    cbv zeta in Hrun.
    destruct (model_synthesise _ _) as [o | e] eqn:Hsynth;
      [| injection Hrun as _ <-; contradiction].
    destruct (vocoder_decode _ _) as [row | e] eqn:Hdec;
      [| injection Hrun as _ <-; contradiction].
    destruct (shape_last (squeeze row)) as [samples | e] eqn:Hshape;
      [| injection Hrun as _ <-; contradiction].
    destruct (true_div _ samples) as [rtf_w | e] eqn:Hdiv;
      [| injection Hrun as _ <-; contradiction].
    destruct output_path as [root |];
      [| injection Hrun as _ <-; contradiction].
    exists n_spk, tp, o, row, samples, rtf_w, root. easy.
  - intros ->. apply tts_ok_inv in Hrun
      as (n_spk & tp & o & row & n & rtf_w & root & fs1 & fs2 & fs3 & Hrun).
    cbv zeta in Hrun.
    destruct Hrun as (_ & Hpt & Hsynth & Hdec & _ & _ & -> & Hmk & Hnpy & Hwav & ->).
    destruct (save_steps_inv _ _ _ _ _ _ _ (path_div_nonempty _ _) Hmk Hnpy Hwav)
      as (_ & -> & ->).
    exists n_spk, tp, o, row, root.
    split; [exact Hpt |]. split; [exact Hsynth |]. split; [exact Hdec |].
    split; [reflexivity |]. rewrite !w_fs_log. cbn [w_fs set_fs].
    rewrite !app_assoc. split.
    + rewrite lookup_insert_ne, lookup_insert_eq; [reflexivity |].
      intros Heq. apply path_div_inj in Heq. discriminate.
    + now rewrite lookup_insert_eq.
Qed.

Lemma output_written_after_both_witness :
  ∃ w',
    tts ex_symbols ex_cleaners ex_clock ex_globals "ab" 2 80 (9 # 10) (7 # 10)
      (Some ["out"]) "catalan_cleaners" ex_world = (Ok (), w')
    ∧ w_fs w' !! ["out"; "spk_2"; "synth.npy"] = Some (File (NpyArray ex_mel))
    ∧ w_fs w' !! ["out"; "spk_2"; "synth.wav"]
      = Some (File (WavFile (Samples [0; 1; 0]%Q) 22050 "PCM_24")).
Proof.
  pose (run := tts ex_symbols ex_cleaners ex_clock ex_globals "ab" 2 80 (9 # 10)
                 (7 # 10) (Some ["out"]) "catalan_cleaners" ex_world).
  assert (Hrun : run = (Ok (), run.2)) by (vm_compute; reflexivity).
  destruct (output_written_after_both _ _ _ _ _ _ _ _ _ _ _ _ _ _ Hrun)
    as [_ Hfiles].
  destruct (Hfiles eq_refl)
    as (n_spk & tp & o & row & root & _ & Hsynth & Hdec & Hroot & Hnpy & Hwav).
  injection Hroot as <-. injection Hsynth as <-. injection Hdec as <-.
  exists run.2. split; [exact Hrun |]. split; [exact Hnpy | exact Hwav].
Defined.

(** C7.  Persistence contract.  A run with speaker id [S] and output root
    [R] that returns normally has created the directory [R/spk_S] with
    [mkdir(parents, exist_ok)]: the directory exists afterwards, only
    missing directories on the way to it were added, an already existing
    one is left as it is without error, and creating it again changes
    nothing.  Under it the run has written exactly two files with the
    base name [synth]: [synth.npy], the mel-spectrogram array, and
    [synth.wav], the waveform as 24-bit PCM at 22050 Hz.  Whatever was
    stored under these two names before is replaced, and no other path
    is touched. *)
Theorem save_persistence
    (symbols : list ascii) (cleaners : gmap string (string → string))
    (clock : nat → Z) (g : globals)
    (text : string) (spk_id n_timesteps : Z) (length_scale temperature : Q)
    (root : path) (cleaner : string) (w w' : world) :
  tts symbols cleaners clock g text spk_id n_timesteps length_scale temperature
    (Some root) cleaner w = (Ok (), w') →
  ∃ n_spk tp o row fs1,
    let folder := root ++ ["spk_" +:+ pretty spk_id] in
    let mel_file := folder ++ ["synth.npy"] in
    let wav_file := folder ++ ["synth.wav"] in
    process_text symbols cleaners text cleaner = Ok tp
    ∧ model_synthesise (model g)
        (synthesise_call tp n_spk n_timesteps temperature length_scale) = Ok o
    ∧ vocoder_decode (vocos_vocoder g) (o_mel o) = Ok row
    ∧ mkdir_parents [] folder (w_fs w) = Ok fs1
    ∧ fs1 !! folder = Some Dir
    ∧ (∀ p, fs1 !! p = w_fs w !! p
            ∨ (w_fs w !! p = None ∧ fs1 !! p = Some Dir ∧ p `prefix_of` folder))
    ∧ ((∀ k, 0 < k ≤ length folder → w_fs w !! take k folder = Some Dir) →
       fs1 = w_fs w)
    ∧ mkdir_parents [] folder fs1 = Ok fs1
    ∧ w_fs w' !! mel_file = Some (File (NpyArray (o_mel o)))
    ∧ w_fs w' !! wav_file = Some (File (WavFile (squeeze row) 22050 "PCM_24"))
    ∧ (∀ p, p ≠ mel_file → p ≠ wav_file → w_fs w' !! p = fs1 !! p).
Proof.
  intros Hrun. apply tts_ok_inv in Hrun
    as (n_spk & tp & o & row & n & rtf_w & root' & fs1 & fs2 & fs3 & Hrun).
  cbv zeta in Hrun.
  destruct Hrun as (_ & Hpt & Hsynth & Hdec & _ & _ & Hroot & Hmk & Hnpy & Hwav & ->).
  injection Hroot as <-.
  destruct (save_steps_inv _ _ _ _ _ _ _ (path_div_nonempty _ _) Hmk Hnpy Hwav)
    as (Hdir & -> & ->).
  exists n_spk, tp, o, row, fs1. cbv zeta.
  split; [exact Hpt |]. split; [exact Hsynth |]. split; [exact Hdec |].
  split; [exact Hmk |]. split; [exact Hdir |].
  split; [intros p; apply (mkdir_parents_changes [] _ _ _ p Hmk) |].
  split.
  { intros Hall. pose proof (mkdir_parents_existing [] _ _ Hall) as Hsame.
    rewrite Hsame in Hmk. now injection Hmk. }
  split; [eapply mkdir_parents_idempotent, Hmk |].
  rewrite !w_fs_log. cbn [w_fs set_fs].
  split; [| split].
  - rewrite lookup_insert_ne, lookup_insert_eq; [reflexivity |].
    intros Heq. apply path_div_inj in Heq. discriminate.
  - now rewrite lookup_insert_eq.
  - intros p Hmel Hwavp. now rewrite !lookup_insert_ne.
Qed.

Lemma save_persistence_witness :
  ∃ w',
    tts ex_symbols ex_cleaners ex_clock ex_globals "ab" 2 80 (9 # 10) (7 # 10)
      (Some ["out"]) "catalan_cleaners" ex_world = (Ok (), w')
    ∧ w_fs w' !! ["out"; "spk_2"] = Some Dir
    ∧ w_fs w' !! ["out"; "spk_2"; "synth.npy"] = Some (File (NpyArray ex_mel))
    ∧ w_fs w' !! ["out"; "spk_2"; "synth.wav"]
      = Some (File (WavFile (Samples [0; 1; 0]%Q) 22050 "PCM_24")).
Proof.
  pose (run := tts ex_symbols ex_cleaners ex_clock ex_globals "ab" 2 80 (9 # 10)
                 (7 # 10) (Some ["out"]) "catalan_cleaners" ex_world).
  assert (Hrun : run = (Ok (), run.2)) by (vm_compute; reflexivity).
  destruct (save_persistence _ _ _ _ _ _ _ _ _ _ _ _ _ Hrun)
    as (n_spk & tp & o & row & fs1 & _ & Hsynth & Hdec & _ & Hdir & _ & _ & _
        & Hnpy & Hwav & Hother).
  injection Hsynth as <-. injection Hdec as <-.
  exists run.2. split; [exact Hrun |].
  split; [| split; [exact Hnpy | exact Hwav]].
  rewrite Hother; [exact Hdir | discriminate | discriminate].
Defined.

(** ** Calls of the acoustic model *)

Lemma synthesise_calls_app (tr1 tr2 : list event) :
  synthesise_calls (tr1 ++ tr2) = synthesise_calls tr1 ++ synthesise_calls tr2.
Proof. apply omap_app. Qed.

Ltac trace_suffix :=
    eexists; split;
    [ cbn [snd w_trace log advance]; rewrite <- ?app_assoc; cbn [app]; reflexivity
    | reflexivity ].

Section Calls.

Variable symbols : list ascii.
Variable cleaners : gmap string (string → string).
Variable clock : nat → Z.
Variable g : globals.

(** A run of [tts] calls the acoustic model at most once: not at all when
    the speaker tensor cannot be built or text processing fails, and
    otherwise once, with the arguments [synthesise] assembles. *)
Lemma tts_calls (text : string) (spk_id n_timesteps : Z)
    (length_scale temperature : Q) (output_path : option path)
    (cleaner : string) (w : world) :
  let run := tts symbols cleaners clock g text spk_id n_timesteps length_scale
               temperature output_path cleaner w in
  match speaker_tensor spk_id, process_text symbols cleaners text cleaner with
  | Ok n_spk, Ok tp =>
      ∃ rest,
        w_trace run.2 =
          w_trace w
          ++ EvNow (clock (w_ticks w))
             :: EvSynthesise
                  (synthesise_call tp n_spk n_timesteps temperature length_scale)
             :: rest
        ∧ synthesise_calls rest = []
  | _, _ => run.2 = w
  end.
Proof.
  cbv zeta. rewrite tts_eval.
  destruct (speaker_tensor spk_id) as [n_spk | e]; [| reflexivity].
  destruct (process_text symbols cleaners text cleaner) as [tp | e]; [| reflexivity].
  cbv zeta.
  destruct (model_synthesise _ _) as [o | e]; [| trace_suffix].
  destruct (vocoder_decode _ _) as [row | e]; [| trace_suffix].
  destruct (shape_last (squeeze row)) as [samples | e]; [| trace_suffix].
  destruct (true_div _ samples) as [rtf_w | e]; [| trace_suffix].
  destruct (os_path_join output_path _) as [folder | e]; [| trace_suffix].
  match goal with |- context [save_to_folder ?f ?out ?wv ?fo ?w4] =>
    pose proof (save_to_folder_keeps_trace out wv fo w4) as [Htr _];
    destruct (save_to_folder f out wv fo w4) as [[[] | e] w5]
  end; cbn [snd] in Htr.
  - eexists. split.
    + cbn [snd w_trace log advance] in *. rewrite Htr.
      rewrite <- ?app_assoc. cbn [app]. reflexivity.
    + reflexivity.
  - eexists. split.
    + cbn [snd]. rewrite Htr. cbn [w_trace log advance].
      rewrite <- ?app_assoc. cbn [app]. reflexivity.
    + reflexivity.
Qed.

(** The calls a run of [tts] adds to the trace all carry the arguments of
    that run. *)
Lemma tts_calls_bound (text : string) (spk_id n_timesteps : Z)
    (length_scale temperature : Q) (output_path : option path)
    (cleaner : string) (w : world) :
  ∃ calls,
    synthesise_calls
      (w_trace (tts symbols cleaners clock g text spk_id n_timesteps length_scale
                  temperature output_path cleaner w).2)
    = synthesise_calls (w_trace w) ++ calls
    ∧ (length calls ≤ 1)%nat
    ∧ Forall (λ a, a_n_timesteps a = n_timesteps) calls.
Proof.
  pose proof (tts_calls text spk_id n_timesteps length_scale temperature
                output_path cleaner w) as Hcalls.
  cbv zeta in Hcalls.
  destruct (speaker_tensor spk_id) as [n_spk | e].
  2: { exists []. rewrite Hcalls, app_nil_r. repeat constructor. }
  destruct (process_text symbols cleaners text cleaner) as [tp | e].
  2: { exists []. rewrite Hcalls, app_nil_r. repeat constructor. }
  destruct Hcalls as (rest & -> & Hrest).
  eexists [_]. rewrite synthesise_calls_app.
  unfold synthesise_calls in Hrest |- *. cbn. rewrite Hrest.
  split; [reflexivity |]. split; [cbn; lia |]. repeat constructor.
Qed.

End Calls.

(** ** Speaker conditioning *)

(** C9, as stated, fails.  For the speaker id [2^63], which is not
    negative and which the text "ab" and a registered profile accompany,
    the run stops with an overflow when line 80 builds the [torch.long]
    tensor: nothing is passed to the acoustic model. *)
Lemma speaker_id_beyond_int64 :
  (0 ≤ 2 ^ 63)%Z
  ∧ (∃ tp, process_text ex_symbols ex_cleaners "ab" "catalan_cleaners" = Ok tp)
  ∧ tts ex_symbols ex_cleaners ex_clock ex_globals "ab" (2 ^ 63) 80 (9 # 10)
      (7 # 10) (Some ["out"]) "catalan_cleaners" ex_world
    = (Raise (TensorOverflow (2 ^ 63)), ex_world)
  ∧ synthesise_calls
      (w_trace (tts ex_symbols ex_cleaners ex_clock ex_globals "ab" (2 ^ 63) 80
                  (9 # 10) (7 # 10) (Some ["out"]) "catalan_cleaners" ex_world).2)
    = [].
Proof.
  split; [lia |]. split; [eexists; reflexivity |].
  split; vm_compute; reflexivity.
Qed.

(** C9, amended.  Whenever text processing succeeds, [tts] calls the
    acoustic model exactly once, right after reading the clock, and the
    speaker conditioning it passes is [None] for every [spk_id < 0] and
    the one-element tensor holding exactly [spk_id] for every
    [0 <= spk_id < 2^63], the range of the [torch.long] tensor; within
    that range this layer rejects no speaker id. *)
Theorem speaker_conditioning
    (symbols : list ascii) (cleaners : gmap string (string → string))
    (clock : nat → Z) (g : globals)
    (text : string) (spk_id n_timesteps : Z) (length_scale temperature : Q)
    (output_path : option path) (cleaner : string) (w : world)
    (tp : text_processed) :
  process_text symbols cleaners text cleaner = Ok tp →
  (spk_id < 2 ^ 63)%Z →
  ∃ a rest,
    w_trace (tts symbols cleaners clock g text spk_id n_timesteps length_scale
               temperature output_path cleaner w).2
    = w_trace w ++ EvNow (clock (w_ticks w)) :: EvSynthesise a :: rest
    ∧ synthesise_calls rest = []
    ∧ a = synthesise_call tp (a_spks a) n_timesteps temperature length_scale
    ∧ ((spk_id < 0)%Z → a_spks a = None)
    ∧ ((0 ≤ spk_id)%Z → a_spks a = Some [spk_id]).
Proof.
  intros Hpt Hrange.
  pose proof (tts_calls symbols cleaners clock g text spk_id n_timesteps
                length_scale temperature output_path cleaner w) as Hcalls.
  cbv zeta in Hcalls.
  rewrite speaker_tensor_in_range, Hpt in Hcalls by (unfold int64_max; lia).
  destruct Hcalls as (rest & Htrace & Hrest).
  eexists _, rest. split; [exact Htrace |]. split; [exact Hrest |].
  split; [reflexivity |]. cbn [a_spks synthesise_call]. split; intros Hsign.
  - destruct (Z.leb_spec 0 spk_id); [lia | reflexivity].
  - destruct (Z.leb_spec 0 spk_id); [reflexivity | lia].
Qed.

Lemma speaker_conditioning_witness :
  ∃ a b rest_a rest_b,
    w_trace (tts ex_symbols ex_cleaners ex_clock ex_globals "ab" (-1) 80 (9 # 10)
               (7 # 10) (Some ["out"]) "catalan_cleaners" ex_world).2
    = EvNow 0 :: EvSynthesise a :: rest_a
    ∧ a_spks a = None
    ∧ w_trace (tts ex_symbols ex_cleaners ex_clock ex_globals "ab" 7 80 (9 # 10)
                 (7 # 10) (Some ["out"]) "catalan_cleaners" ex_world).2
      = EvNow 0 :: EvSynthesise b :: rest_b
    ∧ a_spks b = Some [7%Z].
Proof.
  destruct (speaker_conditioning ex_symbols ex_cleaners ex_clock ex_globals "ab"
              (-1) 80 (9 # 10) (7 # 10) (Some ["out"]) "catalan_cleaners" ex_world
              _ eq_refl eq_refl) as (a & rest_a & Ha & _ & _ & Hneg & _).
  destruct (speaker_conditioning ex_symbols ex_cleaners ex_clock ex_globals "ab"
              7 80 (9 # 10) (7 # 10) (Some ["out"]) "catalan_cleaners" ex_world
              _ eq_refl eq_refl) as (b & rest_b & Hb & _ & _ & _ & Hpos).
  exists a, b, rest_a, rest_b.
  split; [exact Ha |]. split; [apply Hneg; lia |].
  split; [exact Hb |]. apply Hpos. lia.
Defined.

(** ** The command line *)

Lemma parse_args_snoc (argv : list cli_argument) (a : cli_argument) :
  parse_args (argv ++ [a]) = set_argument (parse_args argv) a.
Proof. unfold parse_args. now rewrite fold_left_app. Qed.

(** A flag that does not occur on the command line leaves its attribute
    at the default. *)
Lemma parse_args_default {A : Type} (field : namespace → A) (flag : string) :
  (∀ ns a, flag_of a ≠ flag → field (set_argument ns a) = field ns) →
  ∀ argv, flag ∉ flag_of <$> argv → field (parse_args argv) = field parser_defaults.
Proof.
  intros Hother argv.
  induction argv as [| a argv IH] using rev_ind; intros Habsent; [reflexivity |].
  rewrite fmap_app in Habsent. apply not_elem_of_app in Habsent as [Hargv Ha].
  rewrite parse_args_snoc, Hother; [now apply IH |].
  intros Heq. apply Ha. rewrite <- Heq. apply list_elem_of_singleton. reflexivity.
Qed.

(** C8.  Command-line defaults.  The parser has one flag for each of the
    output directory, the input text, the temperature, the duration
    scale, the speaker id and the text-normalization profile: a flag
    that is given last sets its attribute.  A flag that is not given
    leaves its default: temperature 0.70, duration scale 0.9, speaker id
    2 and profile ["auto"], and with the profile left at ["auto"] the
    cleaner handed to [tts] is the one the accent table gives for the
    speaker id. *)
Theorem cli_defaults (argv : list cli_argument) :
  parse_args [] =
    {| output_path := None;
       text_input := "Això és una prova de síntesi de veu.";
       temperature := (7 # 10)%Q;
       length_scale := (9 # 10)%Q;
       speaker_id := 2%Z;
       cleaner := "auto" |}
  ∧ ("--temperature" ∉ flag_of <$> argv →
       temperature (parse_args argv) = (7 # 10)%Q)
  ∧ ("--length_scale" ∉ flag_of <$> argv →
       length_scale (parse_args argv) = (9 # 10)%Q)
  ∧ ("--speaker_id" ∉ flag_of <$> argv → speaker_id (parse_args argv) = 2%Z)
  ∧ ("--cleaner" ∉ flag_of <$> argv →
       cleaner (parse_args argv) = "auto"
       ∧ resolve_cleaner (speaker_id (parse_args argv)) (cleaner (parse_args argv))
         = get_cleaner_for_speaker_id (speaker_id (parse_args argv)))
  ∧ (∀ p, flag_of (Arg_output_path p) = "--output_path"
          ∧ output_path (parse_args (argv ++ [Arg_output_path p])) = Some p)
  ∧ (∀ s, flag_of (Arg_text_input s) = "--text_input"
          ∧ text_input (parse_args (argv ++ [Arg_text_input s])) = s)
  ∧ (∀ q, flag_of (Arg_temperature q) = "--temperature"
          ∧ temperature (parse_args (argv ++ [Arg_temperature q])) = q)
  ∧ (∀ q, flag_of (Arg_length_scale q) = "--length_scale"
          ∧ length_scale (parse_args (argv ++ [Arg_length_scale q])) = q)
  ∧ (∀ n, flag_of (Arg_speaker_id n) = "--speaker_id"
          ∧ speaker_id (parse_args (argv ++ [Arg_speaker_id n])) = n)
  ∧ (∀ s, flag_of (Arg_cleaner s) = "--cleaner"
          ∧ cleaner (parse_args (argv ++ [Arg_cleaner s])) = s).
Proof.
  split; [reflexivity |].
  split.
  { apply (parse_args_default temperature).
    intros ns [] Hne; try reflexivity. now contradiction Hne. }
  split.
  { apply (parse_args_default length_scale).
    intros ns [] Hne; try reflexivity. now contradiction Hne. }
  split.
  { apply (parse_args_default speaker_id).
    intros ns [] Hne; try reflexivity. now contradiction Hne. }
  split.
  { intros Habsent.
    assert (Hauto : cleaner (parse_args argv) = "auto").
    { revert Habsent. apply (parse_args_default cleaner).
      intros ns [] Hne; try reflexivity. now contradiction Hne. }
    rewrite Hauto. split; [reflexivity | apply resolve_cleaner_auto]. }
  repeat split; now rewrite parse_args_snoc.
Qed.

Lemma cli_defaults_witness :
  temperature (parse_args [Arg_text_input "ab"; Arg_output_path ["out"]]) = (7 # 10)%Q
  ∧ length_scale (parse_args [Arg_text_input "ab"; Arg_output_path ["out"]]) = (9 # 10)%Q
  ∧ speaker_id (parse_args [Arg_text_input "ab"; Arg_output_path ["out"]]) = 2%Z
  ∧ cleaner (parse_args [Arg_text_input "ab"; Arg_output_path ["out"]]) = "auto".
Proof.
  destruct (cli_defaults [Arg_text_input "ab"; Arg_output_path ["out"]])
    as (_ & Htemp & Hscale & Hspk & Hcleaner & _).
  assert (Hgiven : ∀ flag : string,
            flag ∈ flag_of <$> [Arg_text_input "ab"; Arg_output_path ["out"]] →
            flag = "--text_input" ∨ flag = "--output_path").
  { intros flag Hin. cbn in Hin. apply elem_of_cons in Hin as [-> | Hin]; [now left |].
    apply list_elem_of_singleton in Hin as ->. now right. }
  split; [| split; [| split]].
  - apply Htemp. intros Hin. destruct (Hgiven _ Hin); discriminate.
  - apply Hscale. intros Hin. destruct (Hgiven _ Hin); discriminate.
  - apply Hspk. intros Hin. destruct (Hgiven _ Hin); discriminate.
  - apply Hcleaner. intros Hin. destruct (Hgiven _ Hin); discriminate.
Defined.

(** ** The refinement-step count *)

Section MainFacts.

Variable symbols : list ascii.
Variable cleaners : gmap string (string → string).
Variable clock : nat → Z.
Variable hub_matcha : string → option acoustic_model.
Variable hub_vocos : string → option vocoder_model.
Variable initial_threads : Z.

Lemma main_eval (argv : list cli_argument) (w : world) :
  main symbols cleaners clock hub_matcha hub_vocos initial_threads argv w =
    let args := parse_args argv in
    let w0 := log [ EvPrint (MsgThreads initial_threads); EvPrint (MsgThreads 8);
                    EvLoadModel matxa ] w in
    match hub_matcha matxa with
    | None => (Raise (LoadError matxa), w0)
    | Some m =>
        let w1 := log [ EvPrint (MsgModelLoaded (model_parameters m));
                        EvLoadVocoder alvocat ] w0 in
        match hub_vocos alvocat with
        | None => (Raise (LoadError alvocat), w1)
        | Some v =>
            tts symbols cleaners clock {| model := m; vocos_vocoder := v |}
              (text_input args) (speaker_id args) 80 (length_scale args)
              (temperature args) (output_path args)
              (resolve_cleaner (speaker_id args) (cleaner args)) w1
        end
    end.
Proof.
  unfold main, load_model_from_hf, load_vocos_vocoder_from_hf.
  rewrite !bind_print, bind_run, bind_emit, !log_log. cbn [app]. unfold lift at 1.
  destruct (hub_matcha matxa) as [m |]; [| reflexivity].
  rewrite bind_print, bind_run, bind_emit, !log_log. cbn [app]. unfold lift at 1.
  destruct (hub_vocos alvocat) as [v |]; reflexivity.
Qed.

End MainFacts.

(** C10.  The refinement-step count is fixed.  Whatever flags are given,
    every call of the acoustic model that a command-line run makes has
    [n_timesteps = 80], which is not the default 10 of [tts]; there is at
    most one such call; and once both models are loaded the run is the
    run of [tts] with [n_timesteps = 80] and the other arguments taken
    from the command line. *)
Theorem cli_refinement_steps
    (symbols : list ascii) (cleaners : gmap string (string → string))
    (clock : nat → Z) (hub_matcha : string → option acoustic_model)
    (hub_vocos : string → option vocoder_model) (initial_threads : Z)
    (argv : list cli_argument) (w : world) :
  (∃ calls,
     synthesise_calls
       (w_trace (main symbols cleaners clock hub_matcha hub_vocos initial_threads
                   argv w).2)
     = synthesise_calls (w_trace w) ++ calls
     ∧ (length calls ≤ 1)%nat
     ∧ Forall (λ a, a_n_timesteps a = 80%Z) calls
     ∧ Forall (λ a, a_n_timesteps a ≠ tts_default_n_timesteps) calls)
  ∧ (∀ m v, hub_matcha matxa = Some m → hub_vocos alvocat = Some v →
       ∃ w1,
         main symbols cleaners clock hub_matcha hub_vocos initial_threads argv w
         = tts symbols cleaners clock {| model := m; vocos_vocoder := v |}
             (text_input (parse_args argv)) (speaker_id (parse_args argv)) 80
             (length_scale (parse_args argv)) (temperature (parse_args argv))
             (output_path (parse_args argv))
             (resolve_cleaner (speaker_id (parse_args argv))
                (cleaner (parse_args argv))) w1).
Proof.
  split.
  - rewrite main_eval. cbv zeta.
    assert (Hnone : ∀ evs (w0 : world),
              synthesise_calls evs = [] →
              synthesise_calls (w_trace (log evs w0)) = synthesise_calls (w_trace w0)).
    { intros evs w0 Hevs. cbn [w_trace log].
      now rewrite synthesise_calls_app, Hevs, app_nil_r. }
    destruct (hub_matcha matxa) as [m |].
    2: { exists []. cbn [snd]. rewrite Hnone, app_nil_r by reflexivity.
         repeat constructor. }
    destruct (hub_vocos alvocat) as [v |].
    2: { exists []. cbn [snd]. rewrite !Hnone, app_nil_r by reflexivity.
         repeat constructor. }
    match goal with |- context [tts ?s ?c ?k ?g ?t ?i ?n ?l ?te ?o ?cl ?w1] =>
      destruct (tts_calls_bound s c k g t i n l te o cl w1)
        as (calls & Hcalls & Hlen & H80)
    end.
    exists calls. rewrite Hcalls, !Hnone by reflexivity.
    split; [reflexivity |]. split; [exact Hlen |]. split; [exact H80 |].
    eapply Forall_impl; [exact H80 |]. intros a ->. discriminate.
  - intros m v Hm Hv. rewrite main_eval, Hm, Hv. cbv zeta. eauto.
Qed.

Lemma cli_refinement_steps_witness :
  ∃ a w1,
    synthesise_calls
      (w_trace (main ex_symbols ex_cleaners ex_clock ex_hub_matcha ex_hub_vocos 4
                  [Arg_text_input "ab"; Arg_output_path ["out"]] ex_world).2)
    = [a]
    ∧ a_n_timesteps a = 80%Z
    ∧ main ex_symbols ex_cleaners ex_clock ex_hub_matcha ex_hub_vocos 4
        [Arg_text_input "ab"; Arg_output_path ["out"]] ex_world
      = tts ex_symbols ex_cleaners ex_clock ex_globals "ab" 2 80 (9 # 10) (7 # 10)
          (Some ["out"]) "catalan_cleaners" w1.
Proof.
  destruct (cli_refinement_steps ex_symbols ex_cleaners ex_clock ex_hub_matcha
              ex_hub_vocos 4 [Arg_text_input "ab"; Arg_output_path ["out"]] ex_world)
    as ((calls & Hcalls & _ & H80 & _) & Hmain).
  destruct (Hmain ex_model ex_vocoder eq_refl eq_refl) as (w1 & Hw1).
  assert (Hone : ∃ a, synthesise_calls
      (w_trace (main ex_symbols ex_cleaners ex_clock ex_hub_matcha ex_hub_vocos 4
                  [Arg_text_input "ab"; Arg_output_path ["out"]] ex_world).2) = [a]).
  { eexists. vm_compute. reflexivity. }
  destruct Hone as (a & Ha).
  exists a, w1. split; [exact Ha |]. split; [| exact Hw1].
  rewrite Ha in Hcalls. cbn in Hcalls. subst calls.
  now apply Forall_cons in H80 as [H80 _].
Defined.

(** * Further properties of the script *)

(** ** Saving *)

Section SavingFacts.

Implicit Types (fs : gmap path node) (p done todo folder : path).

Lemma path_extension_neq done todo :
  todo ≠ [] → done ++ todo ≠ done.
Proof.
  intros Hne Heq. apply (f_equal length) in Heq. rewrite length_app in Heq.
  destruct todo; [contradiction | cbn in Heq; lia].
Qed.

Lemma path_div_not_prefix folder (name : string) :
  ¬ (folder ++ [name]) `prefix_of` folder.
Proof.
  intros Hpre. apply prefix_length in Hpre. rewrite length_app in Hpre.
  cbn in Hpre. lia.
Qed.

(** [mkdir(parents=True, exist_ok=True)] fails exactly when a regular file
    lies on the way. *)
Lemma mkdir_parents_ok_iff done todo fs :
  (∃ fs', mkdir_parents done todo fs = Ok fs')
  ↔ (∀ k c, 0 < k ≤ length todo → fs !! (done ++ take k todo) ≠ Some (File c)).
Proof.
  revert done fs. induction todo as [| c0 rest IH]; intros done fs.
  { split; [intros _ k c Hk; cbn in Hk; lia | intros _; now exists fs]. }
  assert (Hlonger : ∀ k, 0 < k ≤ length rest →
            (done ++ [c0]) ++ take k rest ≠ done ++ [c0]).
  { intros k Hk. apply path_extension_neq.
    destruct rest, k; cbn in *; try lia; discriminate. }
  assert (Hshift : ∀ k, done ++ take (S k) (c0 :: rest)
                        = (done ++ [c0]) ++ take k rest).
  { intros k. cbn [take]. now rewrite <- app_assoc. }
  cbn [mkdir_parents].
  destruct (fs !! (done ++ [c0])) as [[| content] |] eqn:Hd.
  - rewrite IH. split.
    + intros Hrest k c Hk. destruct k as [| k]; [lia |]. rewrite Hshift.
      destruct k as [| k].
      * rewrite take_0, app_nil_r, Hd. discriminate.
      * apply Hrest. cbn [length] in Hk. lia.
    + intros Hall k c Hk. rewrite <- Hshift. apply Hall. cbn [length]. lia.
  - split.
    + intros [fs' Hfs']. destruct rest; discriminate.
    + intros Hall. exfalso. apply (Hall 1 content); [cbn [length]; lia |].
      rewrite Hshift, take_0, app_nil_r. exact Hd.
  - rewrite IH. split.
    + intros Hrest k c Hk. destruct k as [| k]; [lia |]. rewrite Hshift.
      destruct k as [| k].
      * rewrite take_0, app_nil_r, Hd. discriminate.
      * specialize (Hrest (S k) c). rewrite lookup_insert_ne in Hrest.
        -- apply Hrest. cbn [length] in Hk. lia.
        -- intros Heq. symmetry in Heq. revert Heq. apply Hlonger.
           cbn [length] in Hk. lia.
    + intros Hall k c Hk. rewrite lookup_insert_ne.
      * rewrite <- Hshift. apply Hall. cbn [length]. lia.
      * intros Heq. symmetry in Heq. revert Heq. now apply Hlonger.
Qed.

Lemma write_file_ok_iff p (c : file_content) fs fs' :
  write_file p c fs = Ok fs'
  ↔ (removelast p = [] ∨ fs !! removelast p = Some Dir)
    ∧ fs !! p ≠ Some Dir
    ∧ fs' = <[p := File c]> fs.
Proof.
  unfold write_file. destruct (decide (removelast p = [])) as [Hroot | Hroot].
  - destruct (fs !! p) as [[| c'] |] eqn:Hp; split.
    + discriminate.
    + now intros (_ & Hne & _).
    + intros [= <-]. repeat split; [now left | discriminate].
    + now intros (_ & _ & ->).
    + intros [= <-]. repeat split; [now left | discriminate].
    + now intros (_ & _ & ->).
  - destruct (fs !! removelast p) as [[| c''] |] eqn:Hparent.
    + destruct (fs !! p) as [[| c'] |] eqn:Hp; split.
      * discriminate.
      * now intros (_ & Hne & _).
      * intros [= <-]. repeat split; [now right | discriminate].
      * now intros (_ & _ & ->).
      * intros [= <-]. repeat split; [now right | discriminate].
      * now intros (_ & _ & ->).
    + split; [discriminate |]. intros ([Hr | Hr] & _); [contradiction | discriminate].
    + split; [discriminate |]. intros ([Hr | Hr] & _); [contradiction | discriminate].
Qed.

(** A run of [save_to_folder] that returns normally, step by step. *)
Lemma save_to_folder_ok_iff (output : synth_output) (waveform : audio)
    folder (w w' : world) :
  save_to_folder "synth" output waveform folder w = (Ok (), w')
  ↔ ∃ fs1,
      mkdir_parents [] folder (w_fs w) = Ok fs1
      ∧ fs1 !! (folder ++ ["synth.npy"]) ≠ Some Dir
      ∧ fs1 !! (folder ++ ["synth.wav"]) ≠ Some Dir
      ∧ w' = set_fs
               (<[folder ++ ["synth.wav"] := File (WavFile waveform 22050 "PCM_24")]>
                  (<[folder ++ ["synth.npy"] := File (NpyArray (mel output))]> fs1))
               w.
Proof.
  rewrite save_to_folder_eval.
  destruct (mkdir_parents [] folder (w_fs w)) as [fs1 | e] eqn:Hmk.
  2: { split; [discriminate | intros (fs1 & [=] & _)]. }
  assert (Hparent : ∀ fs (name : string),
            fs !! folder = fs1 !! folder →
            removelast (folder ++ [name]) = []
            ∨ fs !! removelast (folder ++ [name]) = Some Dir).
  { intros fs name Hsame. rewrite removelast_last.
    destruct (decide (folder = [])) as [-> | Hne]; [now left | right].
    rewrite Hsame. eapply mkdir_parents_dir; eassumption. }
  assert (Hwav_key : ∀ (c : file_content) fs,
            <[folder ++ ["synth.npy"] := File c]> fs !! (folder ++ ["synth.wav"])
            = fs !! (folder ++ ["synth.wav"])).
  { intros c fs. apply lookup_insert_ne. intros Heq.
    apply path_div_inj in Heq. discriminate. }
  destruct (write_file _ _ fs1) as [fs2 | e] eqn:Hnpy.
  2: { split; [discriminate |]. intros (fs1' & [= <-] & Hn & _).
       assert (∃ fs2, write_file (folder ++ ["synth.npy"])
                        (NpyArray (mel output)) fs1 = Ok fs2) as [fs2 Hfs2].
       { eexists. apply write_file_ok_iff. eauto. }
       congruence. }
  apply write_file_ok_iff in Hnpy as (_ & Hn & ->).
  destruct (write_file _ _ _) as [fs3 | e] eqn:Hwav.
  - apply write_file_ok_iff in Hwav as (_ & Hw & ->). rewrite Hwav_key in Hw.
    split.
    + intros [= <-]. exists fs1. eauto.
    + intros (fs1' & [= <-] & _ & _ & ->). reflexivity.
  - split; [discriminate |]. intros (fs1' & [= <-] & _ & Hw & _).
    assert (∃ fs3, write_file (folder ++ ["synth.wav"])
                     (WavFile waveform 22050 "PCM_24")
                     (<[folder ++ ["synth.npy"] := File (NpyArray (mel output))]> fs1)
                   = Ok fs3) as [fs3 Hfs3].
    { eexists. apply write_file_ok_iff. split; [| split; [| reflexivity]].
      - apply Hparent. apply lookup_insert_ne. apply not_eq_sym, path_div_neq.
      - now rewrite Hwav_key. }
    congruence.
Qed.

End SavingFacts.

Lemma mkdir_parents_keeps_files (folder : path) (name : string)
    (fs fs1 : gmap path node) :
  mkdir_parents [] folder fs = Ok fs1 →
  fs1 !! (folder ++ [name]) = fs !! (folder ++ [name]).
Proof.
  intros Hmk.
  destruct (mkdir_parents_changes [] folder fs fs1 (folder ++ [name]) Hmk)
    as [Heq | (_ & _ & Hpre)]; [exact Heq |].
  now apply path_div_not_prefix in Hpre.
Qed.

(** X17.  When saving succeeds.  [save_to_folder] returns normally exactly
    when no regular file lies on the path of the folder and neither
    [synth.npy] nor [synth.wav] in it is a directory.  Regular files
    already stored under the two names never make it fail, and neither
    does an existing folder. *)
Theorem save_to_folder_succeeds_iff (output : synth_output) (waveform : audio)
    (folder : path) (w : world) :
  (∃ w', save_to_folder "synth" output waveform folder w = (Ok (), w'))
  ↔ (∀ k c, 0 < k ≤ length folder → w_fs w !! take k folder ≠ Some (File c))
    ∧ w_fs w !! (folder ++ ["synth.npy"]) ≠ Some Dir
    ∧ w_fs w !! (folder ++ ["synth.wav"]) ≠ Some Dir.
Proof.
  split.
  - intros (w' & Hsave). apply save_to_folder_ok_iff in Hsave
      as (fs1 & Hmk & Hnpy & Hwav & _).
    rewrite (mkdir_parents_keeps_files _ "synth.npy" _ _ Hmk) in Hnpy.
    rewrite (mkdir_parents_keeps_files _ "synth.wav" _ _ Hmk) in Hwav.
    split; [| easy].
    apply (mkdir_parents_ok_iff [] folder (w_fs w)). eauto.
  - intros (Hway & Hnpy & Hwav).
    apply (mkdir_parents_ok_iff [] folder (w_fs w)) in Hway as [fs1 Hmk].
    eexists. apply save_to_folder_ok_iff. exists fs1.
    rewrite (mkdir_parents_keeps_files _ "synth.npy" _ _ Hmk).
    rewrite (mkdir_parents_keeps_files _ "synth.wav" _ _ Hmk). eauto.
Qed.

Lemma save_to_folder_succeeds_iff_witness :
  ∃ w', save_to_folder "synth" ex_output (Samples [0; 1; 0]%Q) ["out"; "spk_2"]
          ex_world = (Ok (), w').
Proof.
  apply save_to_folder_succeeds_iff. cbn [w_fs ex_world].
  split; [| split]; intros; rewrite lookup_empty; discriminate.
Defined.

(** X18.  Saving is idempotent.  Saving the same output a second time, right
    after a first save that returned normally, returns normally again and
    leaves the disk exactly as the first save left it. *)
Theorem save_to_folder_twice (output : synth_output) (waveform : audio)
    (folder : path) (w w1 : world) :
  save_to_folder "synth" output waveform folder w = (Ok (), w1) →
  save_to_folder "synth" output waveform folder w1 = (Ok (), w1).
Proof.
  intros Hsave. apply save_to_folder_ok_iff in Hsave
    as (fs1 & Hmk & Hnpy & Hwav & ->).
  set (npy := folder ++ ["synth.npy"]) in *.
  set (wav := folder ++ ["synth.wav"]) in *.
  set (fs3 := <[wav := File (WavFile waveform 22050 "PCM_24")]>
                (<[npy := File (NpyArray (mel output))]> fs1)).
  assert (Hkeys : npy ≠ wav).
  { intros Heq. apply path_div_inj in Heq. discriminate. }
  assert (Hway : ∀ k, 0 < k ≤ length folder → fs3 !! take k folder = Some Dir).
  { intros k Hk. unfold fs3.
    assert (Hshort : ∀ name : string, folder ++ [name] ≠ take k folder).
    { intros name Heq. apply (f_equal length) in Heq.
      rewrite length_app, length_take in Heq. cbn in Heq. lia. }
    rewrite !lookup_insert_ne by apply Hshort.
    apply (mkdir_parents_dirs [] folder (w_fs w) fs1 k Hmk Hk). }
  apply save_to_folder_ok_iff. exists fs3. cbn [w_fs set_fs].
  split; [now apply mkdir_parents_existing |].
  split.
  { unfold fs3. rewrite lookup_insert_ne, lookup_insert_eq by easy. discriminate. }
  split.
  { unfold fs3. rewrite lookup_insert_eq. discriminate. }
  unfold set_fs. cbn [w_trace w_ticks]. f_equal.
  symmetry. rewrite (insert_id fs3 npy).
  - apply insert_id. unfold fs3. apply lookup_insert_eq.
  - unfold fs3. now rewrite lookup_insert_ne, lookup_insert_eq.
Qed.

Lemma save_to_folder_twice_witness :
  ∃ w1,
    save_to_folder "synth" ex_output (Samples [0; 1; 0]%Q) ["out"; "spk_2"]
      ex_world = (Ok (), w1)
    ∧ save_to_folder "synth" ex_output (Samples [0; 1; 0]%Q) ["out"; "spk_2"]
        w1 = (Ok (), w1).
Proof.
  eexists. split; [vm_compute; reflexivity |].
  apply save_to_folder_twice with (w := ex_world). vm_compute. reflexivity.
Defined.

(** ** What a run can touch on disk *)

Lemma save_to_folder_frame (output : synth_output) (waveform : audio)
    (folder p : path) (w : world) :
  w_fs (save_to_folder "synth" output waveform folder w).2 !! p = w_fs w !! p
  ∨ p `prefix_of` folder
  ∨ p = folder ++ ["synth.npy"]
  ∨ p = folder ++ ["synth.wav"].
Proof.
  rewrite save_to_folder_eval.
  destruct (mkdir_parents [] folder (w_fs w)) as [fs1 | e] eqn:Hmk; [| now left].
  assert (Hdirs : fs1 !! p = w_fs w !! p ∨ p `prefix_of` folder).
  { destruct (mkdir_parents_changes [] folder _ _ p Hmk) as [Heq | (_ & _ & Hpre)];
      [now left | now right]. }
  destruct (decide (p = folder ++ ["synth.npy"])) as [-> | Hnpy]; [tauto |].
  destruct (decide (p = folder ++ ["synth.wav"])) as [-> | Hwav]; [tauto |].
  destruct (write_file _ _ fs1) as [fs2 | e] eqn:Hw1; [| cbn; tauto].
  apply write_file_ok_iff in Hw1 as (_ & _ & ->).
  destruct (write_file _ _ _) as [fs3 | e] eqn:Hw2.
  - apply write_file_ok_iff in Hw2 as (_ & _ & ->).
    cbn [snd w_fs set_fs]. rewrite !lookup_insert_ne by easy. tauto.
  - cbn [snd w_fs set_fs]. rewrite lookup_insert_ne by easy. tauto.
Qed.

Lemma shape_last_many (row : list Q) :
  (2 ≤ length row)%nat → shape_last (squeeze row) = Ok (Z.of_nat (length row)).
Proof. destruct row as [| s [| s' rest]]; cbn; [lia | lia | reflexivity]. Qed.

Lemma true_div_nonzero (a : Q) (n : Z) :
  n ≠ 0%Z → true_div a n = Ok (a / inject_Z n)%Q.
Proof. unfold true_div. now destruct (Z.eqb_spec n 0). Qed.

Section Frames.

Variable symbols : list ascii.
Variable cleaners : gmap string (string → string).
Variable clock : nat → Z.
Variable g : globals.

(** A run of [tts] changes nothing on disk outside the speaker's folder,
    the directories leading to it and the two output files, and nothing
    at all without an output path. *)
Lemma tts_fs_frame (text : string) (spk_id n_timesteps : Z)
    (length_scale temperature : Q) (output_path : option path)
    (cleaner : string) (w : world) (p : path) :
  w_fs (tts symbols cleaners clock g text spk_id n_timesteps length_scale
          temperature output_path cleaner w).2 !! p = w_fs w !! p
  ∨ ∃ root,
      output_path = Some root
      ∧ (p `prefix_of` root ++ ["spk_" +:+ pretty spk_id]
         ∨ p = (root ++ ["spk_" +:+ pretty spk_id]) ++ ["synth.npy"]
         ∨ p = (root ++ ["spk_" +:+ pretty spk_id]) ++ ["synth.wav"]).
Proof.
  rewrite tts_eval.
  destruct (speaker_tensor spk_id) as [n_spk | e]; [| now left].
  destruct (process_text symbols cleaners text cleaner) as [tp | e]; [| now left].
  cbv zeta.
  destruct (model_synthesise _ _) as [o | e]; [| now left].
  destruct (vocoder_decode _ _) as [row | e]; [| now left].
  destruct (shape_last (squeeze row)) as [samples | e]; [| now left].
  destruct (true_div _ samples) as [rtf_w | e]; [| now left].
  destruct output_path as [root |]; [| now left].
  cbn [os_path_join].
  match goal with |- context [save_to_folder ?f ?out ?wv ?fo ?w4] =>
    pose proof (save_to_folder_frame out wv fo p w4) as Hframe;
    destruct (save_to_folder f out wv fo w4) as [[[] | e] w5]
  end; cbn [snd w_fs log advance] in *;
    (destruct Hframe as [Heq | Hin]; [now left | right; eauto]).
Qed.

Lemma tts_fs_without_path (text : string) (spk_id n_timesteps : Z)
    (length_scale temperature : Q) (cleaner : string) (w : world) :
  w_fs (tts symbols cleaners clock g text spk_id n_timesteps length_scale
          temperature None cleaner w).2 = w_fs w.
Proof.
  apply map_eq. intros p.
  destruct (tts_fs_frame text spk_id n_timesteps length_scale temperature None
              cleaner w p) as [Heq | (root & [=] & _)].
  exact Heq.
Qed.

Lemma tts_fails_without_path (text : string) (spk_id n_timesteps : Z)
    (length_scale temperature : Q) (cleaner : string) (w : world) :
  (tts symbols cleaners clock g text spk_id n_timesteps length_scale
     temperature None cleaner w).1 ≠ Ok ().
Proof.
  intros Hok.
  destruct (tts symbols cleaners clock g text spk_id n_timesteps length_scale
              temperature None cleaner w) as [r w'] eqn:Hrun.
  cbn in Hok. subst r. apply tts_ok_inv in Hrun
    as (? & ? & ? & ? & ? & ? & root & ? & ? & ? & Hrun).
  cbv zeta in Hrun. now destruct Hrun as (_ & _ & _ & _ & _ & _ & [=] & _).
Qed.

End Frames.

Lemma decode_calls_app (tr1 tr2 : list event) :
  decode_calls (tr1 ++ tr2) = decode_calls tr1 ++ decode_calls tr2.
Proof. apply omap_app. Qed.

(** ** Runs without an output path *)

(** X1.  No output path, no result.  With [output_path = None], the
    default of [tts], a run never returns normally and never changes the
    disk.  When every stage before saving succeeds, the acoustic model and
    the vocoder have both been called once and the run then ends with the
    [TypeError] of [os.path.join]. *)
Theorem tts_without_output_path
    (symbols : list ascii) (cleaners : gmap string (string → string))
    (clock : nat → Z) (g : globals)
    (text : string) (spk_id n_timesteps : Z) (length_scale temperature : Q)
    (cleaner : string) (w : world) :
  (tts symbols cleaners clock g text spk_id n_timesteps length_scale temperature
     None cleaner w).1 ≠ Ok ()
  ∧ w_fs (tts symbols cleaners clock g text spk_id n_timesteps length_scale
            temperature None cleaner w).2 = w_fs w
  ∧ (∀ n_spk tp o row,
       speaker_tensor spk_id = Ok n_spk →
       process_text symbols cleaners text cleaner = Ok tp →
       model_synthesise (model g)
         (synthesise_call tp n_spk n_timesteps temperature length_scale) = Ok o →
       vocoder_decode (vocos_vocoder g) (o_mel o) = Ok row →
       (2 ≤ length row)%nat →
       ∃ w',
         tts symbols cleaners clock g text spk_id n_timesteps length_scale
           temperature None cleaner w = (Raise TypeError, w')
         ∧ synthesise_calls (w_trace w')
           = synthesise_calls (w_trace w)
             ++ [synthesise_call tp n_spk n_timesteps temperature length_scale]
         ∧ decode_calls (w_trace w') = decode_calls (w_trace w) ++ [o_mel o]).
Proof.
  split; [apply tts_fails_without_path |].
  split; [apply tts_fs_without_path |].
  intros n_spk tp o row Hspk Hpt Hsynth Hdec Hrow.
  rewrite tts_eval, Hspk, Hpt. cbv zeta. rewrite Hsynth, Hdec.
  rewrite (shape_last_many _ Hrow), true_div_nonzero by lia.
  cbn [os_path_join]. eexists. split; [reflexivity |].
  cbn [w_trace log advance].
  rewrite !synthesise_calls_app, !decode_calls_app. cbn.
  rewrite !app_nil_r. split; reflexivity.
Qed.

Lemma tts_without_output_path_witness :
  ∃ w',
    tts ex_symbols ex_cleaners ex_clock ex_globals "ab" 2 80 (9 # 10) (7 # 10)
      None "catalan_cleaners" ex_world = (Raise TypeError, w')
    ∧ decode_calls (w_trace w') = [ex_mel].
Proof.
  destruct (tts_without_output_path ex_symbols ex_cleaners ex_clock ex_globals
              "ab" 2 80 (9 # 10) (7 # 10) "catalan_cleaners" ex_world)
    as (_ & _ & Hstages).
  destruct (Hstages (Some [2%Z]) _ _ [0; 1; 0]%Q eq_refl eq_refl eq_refl eq_refl)
    as (w' & Hrun & _ & Hdec); [cbn; lia |].
  exists w'. split; [exact Hrun | exact Hdec].
Defined.

(** X2.  The command line without [--output_path].  When the flag is not
    given, whatever the other flags are, the command-line run never
    returns normally and leaves the disk as it was. *)
Theorem cli_without_output_path
    (symbols : list ascii) (cleaners : gmap string (string → string))
    (clock : nat → Z) (hub_matcha : string → option acoustic_model)
    (hub_vocos : string → option vocoder_model) (initial_threads : Z)
    (argv : list cli_argument) (w : world) :
  "--output_path" ∉ flag_of <$> argv →
  (main symbols cleaners clock hub_matcha hub_vocos initial_threads argv w).1
    ≠ Ok ()
  ∧ w_fs (main symbols cleaners clock hub_matcha hub_vocos initial_threads
            argv w).2 = w_fs w.
Proof.
  intros Habsent.
  assert (Hnone : output_path (parse_args argv) = None).
  { revert Habsent. apply (parse_args_default output_path).
    intros ns [] Hne; try reflexivity. now contradiction Hne. }
  rewrite main_eval. cbv zeta. rewrite Hnone.
  destruct (hub_matcha matxa) as [m |]; [| split; [discriminate | reflexivity]].
  destruct (hub_vocos alvocat) as [v |]; [| split; [discriminate | reflexivity]].
  split; [apply tts_fails_without_path |].
  rewrite tts_fs_without_path. reflexivity.
Qed.

Lemma cli_without_output_path_witness :
  (main ex_symbols ex_cleaners ex_clock ex_hub_matcha ex_hub_vocos 4
     [Arg_text_input "ab"; Arg_speaker_id 3] ex_world).1 ≠ Ok ()
  ∧ w_fs (main ex_symbols ex_cleaners ex_clock ex_hub_matcha ex_hub_vocos 4
            [Arg_text_input "ab"; Arg_speaker_id 3] ex_world).2 = ∅.
Proof.
  apply (cli_without_output_path ex_symbols ex_cleaners ex_clock ex_hub_matcha
           ex_hub_vocos 4 [Arg_text_input "ab"; Arg_speaker_id 3] ex_world).
  cbn. intros Hin. apply elem_of_cons in Hin as [Heq | Hin]; [discriminate |].
  apply list_elem_of_singleton in Hin. discriminate.
Defined.

(** ** How failures propagate *)

(** X3.  Any error of text processing propagates unchanged.  Whatever
    [process_text] raises, an unknown profile or a character the profile
    cannot encode, [synthesise] raises the same exception with the world
    untouched, and so does [tts] for a speaker id that fits the speaker
    tensor: the clock is not read, no model is called, nothing is
    printed or written. *)
Theorem text_failure_propagates
    (symbols : list ascii) (cleaners : gmap string (string → string))
    (clock : nat → Z) (g : globals)
    (text cleaner : string) (e : exn) (spk_id n_timesteps : Z)
    (length_scale temperature : Q) (output_path : option path) (w : world) :
  process_text symbols cleaners text cleaner = Raise e →
  (spk_id < 2 ^ 63)%Z →
  (∀ spks, synthesise symbols cleaners clock g text spks n_timesteps temperature
             length_scale cleaner w = (Raise e, w))
  ∧ tts symbols cleaners clock g text spk_id n_timesteps length_scale temperature
      output_path cleaner w = (Raise e, w).
Proof.
  intros Hpt Hrange. split.
  - intros spks. now apply synthesise_text_failure.
  - rewrite tts_eval, Hpt, speaker_tensor_in_range; [reflexivity |].
    unfold int64_max. lia.
Qed.

Lemma text_failure_propagates_witness :
  process_text ex_symbols ex_cleaners "abc" "catalan_cleaners"
  = Raise (EncodingError "c")
  ∧ tts ex_symbols ex_cleaners ex_clock ex_globals "abc" 2 80 (9 # 10) (7 # 10)
      (Some ["out"]) "catalan_cleaners" ex_world
    = (Raise (EncodingError "c"), ex_world).
Proof.
  split; [reflexivity |].
  apply (text_failure_propagates ex_symbols ex_cleaners ex_clock ex_globals "abc"
           "catalan_cleaners" (EncodingError "c") 2 80 (9 # 10) (7 # 10)
           (Some ["out"]) ex_world); reflexivity.
Defined.

(** X4.  A speaker id beyond 64 bits stops the run first.  For every
    [spk_id >= 2^63], [tts] raises when it builds the speaker tensor,
    whatever the text, the profile and the models are: the text is not
    processed and the world is untouched. *)
Theorem speaker_overflow_first
    (symbols : list ascii) (cleaners : gmap string (string → string))
    (clock : nat → Z) (g : globals)
    (text cleaner : string) (spk_id n_timesteps : Z)
    (length_scale temperature : Q) (output_path : option path) (w : world) :
  (2 ^ 63 ≤ spk_id)%Z →
  tts symbols cleaners clock g text spk_id n_timesteps length_scale temperature
    output_path cleaner w = (Raise (TensorOverflow spk_id), w).
Proof.
  intros Hbig. rewrite tts_eval, speaker_tensor_overflow; [reflexivity |].
  unfold int64_max. lia.
Qed.

Lemma speaker_overflow_first_witness :
  tts ex_symbols ex_cleaners ex_clock ex_globals "ab" (2 ^ 64) 80 (9 # 10) (7 # 10)
    (Some ["out"]) "klingon_cleaners" ex_world
  = (Raise (TensorOverflow (2 ^ 64)), ex_world).
Proof.
  apply (speaker_overflow_first ex_symbols ex_cleaners ex_clock ex_globals "ab"
           "klingon_cleaners" (2 ^ 64) 80 (9 # 10) (7 # 10) (Some ["out"]) ex_world).
  cbn. lia.
Defined.

(** X5.  A failure of the acoustic model propagates unchanged.  When
    [model.synthesise] raises, [tts] raises the same exception; the clock
    has been read once, the model called once, the vocoder is never
    called and the disk is unchanged. *)
Theorem acoustic_failure_propagates
    (symbols : list ascii) (cleaners : gmap string (string → string))
    (clock : nat → Z) (g : globals)
    (text cleaner : string) (spk_id n_timesteps : Z)
    (length_scale temperature : Q) (output_path : option path) (w : world)
    (n_spk : option (list Z)) (tp : text_processed) (e : exn) :
  speaker_tensor spk_id = Ok n_spk →
  process_text symbols cleaners text cleaner = Ok tp →
  model_synthesise (model g)
    (synthesise_call tp n_spk n_timesteps temperature length_scale) = Raise e →
  ∃ w',
    tts symbols cleaners clock g text spk_id n_timesteps length_scale temperature
      output_path cleaner w = (Raise e, w')
    ∧ w_fs w' = w_fs w
    ∧ w_ticks w' = S (w_ticks w)
    ∧ w_trace w' =
        w_trace w
        ++ [ EvNow (clock (w_ticks w));
             EvSynthesise
               (synthesise_call tp n_spk n_timesteps temperature length_scale) ]
    ∧ decode_calls (w_trace w') = decode_calls (w_trace w).
Proof.
  intros Hspk Hpt Hsynth. rewrite tts_eval, Hspk, Hpt. cbv zeta. rewrite Hsynth.
  eexists. split; [reflexivity |]. cbn [w_fs w_ticks w_trace log advance].
  repeat split. rewrite decode_calls_app. cbn. now rewrite app_nil_r.
Qed.

Lemma acoustic_failure_propagates_witness :
  ∃ w',
    tts ex_symbols ex_cleaners ex_clock
      {| model := ex_model_failing; vocos_vocoder := ex_vocoder |}
      "ab" 2 80 (9 # 10) (7 # 10) (Some ["out"]) "catalan_cleaners" ex_world
    = (Raise (ModelError "non-finite value"), w')
    ∧ w_fs w' = ∅ ∧ decode_calls (w_trace w') = [].
Proof.
  destruct (acoustic_failure_propagates ex_symbols ex_cleaners ex_clock
              {| model := ex_model_failing; vocos_vocoder := ex_vocoder |}
              "ab" "catalan_cleaners" 2 80 (9 # 10) (7 # 10) (Some ["out"])
              ex_world _ _ _ eq_refl eq_refl eq_refl)
    as (w' & Hrun & Hfs & _ & _ & Hdec).
  exists w'. split; [exact Hrun |]. split; [exact Hfs | exact Hdec].
Defined.

(** X6.  A failure of the vocoder propagates unchanged.  When
    [vocoder.decode] raises on the mel the model returned, [tts] raises
    the same exception; the clock has been read only once, so no
    real-time factor is computed, and nothing is written: the mel that
    was produced is not saved. *)
Theorem vocoder_failure_propagates
    (symbols : list ascii) (cleaners : gmap string (string → string))
    (clock : nat → Z) (g : globals)
    (text cleaner : string) (spk_id n_timesteps : Z)
    (length_scale temperature : Q) (output_path : option path) (w : world)
    (n_spk : option (list Z)) (tp : text_processed) (o : model_output) (e : exn) :
  speaker_tensor spk_id = Ok n_spk →
  process_text symbols cleaners text cleaner = Ok tp →
  model_synthesise (model g)
    (synthesise_call tp n_spk n_timesteps temperature length_scale) = Ok o →
  vocoder_decode (vocos_vocoder g) (o_mel o) = Raise e →
  ∃ w',
    tts symbols cleaners clock g text spk_id n_timesteps length_scale temperature
      output_path cleaner w = (Raise e, w')
    ∧ w_fs w' = w_fs w
    ∧ w_ticks w' = S (w_ticks w)
    ∧ w_trace w' =
        w_trace w
        ++ [ EvNow (clock (w_ticks w));
             EvSynthesise
               (synthesise_call tp n_spk n_timesteps temperature length_scale);
             EvPrint (MsgMelShape (length (o_mel o)) (mel_frames (o_mel o)));
             EvDecode (o_mel o) ].
Proof.
  intros Hspk Hpt Hsynth Hdec.
  rewrite tts_eval, Hspk, Hpt. cbv zeta. rewrite Hsynth, Hdec.
  eexists. split; [reflexivity |]. cbn [w_fs w_ticks w_trace log advance].
  repeat split. now rewrite <- app_assoc.
Qed.

Lemma vocoder_failure_propagates_witness :
  ∃ w',
    tts ex_symbols ex_cleaners ex_clock
      {| model := ex_model; vocos_vocoder := ex_vocoder_failing |}
      "ab" 2 80 (9 # 10) (7 # 10) (Some ["out"]) "catalan_cleaners" ex_world
    = (Raise (ModelError "shape mismatch"), w')
    ∧ w_fs w' = ∅ ∧ w_ticks w' = 1.
Proof.
  destruct (vocoder_failure_propagates ex_symbols ex_cleaners ex_clock
              {| model := ex_model; vocos_vocoder := ex_vocoder_failing |}
              "ab" "catalan_cleaners" 2 80 (9 # 10) (7 # 10) (Some ["out"])
              ex_world _ _ _ _ eq_refl eq_refl eq_refl eq_refl)
    as (w' & Hrun & Hfs & Hticks & _).
  exists w'. split; [exact Hrun |]. split; [exact Hfs | exact Hticks].
Defined.

(** X7.  Waveforms too short for a real-time factor.  When the vocoder
    returns no sample, the division by the sample count raises
    [ZeroDivisionError]; when it returns a single sample, [squeeze] leaves
    a 0-dimensional tensor and [shape[-1]] raises [IndexError].  In both
    cases the run aborts after the second clock reading with nothing
    written. *)
Theorem short_waveform_aborts
    (symbols : list ascii) (cleaners : gmap string (string → string))
    (clock : nat → Z) (g : globals)
    (text cleaner : string) (spk_id n_timesteps : Z)
    (length_scale temperature : Q) (output_path : option path) (w : world)
    (n_spk : option (list Z)) (tp : text_processed) (o : model_output)
    (row : list Q) :
  speaker_tensor spk_id = Ok n_spk →
  process_text symbols cleaners text cleaner = Ok tp →
  model_synthesise (model g)
    (synthesise_call tp n_spk n_timesteps temperature length_scale) = Ok o →
  vocoder_decode (vocos_vocoder g) (o_mel o) = Ok row →
  (length row ≤ 1)%nat →
  ∃ w',
    tts symbols cleaners clock g text spk_id n_timesteps length_scale temperature
      output_path cleaner w
    = (Raise (match row with [] => ZeroDivisionError | _ => IndexError end), w')
    ∧ w_fs w' = w_fs w
    ∧ w_ticks w' = S (S (w_ticks w)).
Proof.
  intros Hspk Hpt Hsynth Hdec Hshort.
  rewrite tts_eval, Hspk, Hpt. cbv zeta. rewrite Hsynth, Hdec.
  destruct row as [| s [| s' rest]]; [| | cbn in Hshort; lia];
    cbn [squeeze shape_last length]; eexists; (split; [reflexivity |]); easy.
Qed.

Lemma short_waveform_aborts_witness :
  (∃ w', tts ex_symbols ex_cleaners ex_clock
           {| model := ex_model; vocos_vocoder := ex_vocoder_silent |}
           "ab" 2 80 (9 # 10) (7 # 10) (Some ["out"]) "catalan_cleaners" ex_world
         = (Raise ZeroDivisionError, w') ∧ w_fs w' = ∅)
  ∧ (∃ w', tts ex_symbols ex_cleaners ex_clock
             {| model := ex_model; vocos_vocoder := ex_vocoder_single |}
             "ab" 2 80 (9 # 10) (7 # 10) (Some ["out"]) "catalan_cleaners" ex_world
           = (Raise IndexError, w') ∧ w_fs w' = ∅).
Proof.
  split.
  - destruct (short_waveform_aborts ex_symbols ex_cleaners ex_clock
                {| model := ex_model; vocos_vocoder := ex_vocoder_silent |}
                "ab" "catalan_cleaners" 2 80 (9 # 10) (7 # 10) (Some ["out"])
                ex_world _ _ _ [] eq_refl eq_refl eq_refl eq_refl)
      as (w' & Hrun & Hfs & _); [cbn; lia |].
    exists w'. split; [exact Hrun | exact Hfs].
  - destruct (short_waveform_aborts ex_symbols ex_cleaners ex_clock
                {| model := ex_model; vocos_vocoder := ex_vocoder_single |}
                "ab" "catalan_cleaners" 2 80 (9 # 10) (7 # 10) (Some ["out"])
                ex_world _ _ _ [0%Q] eq_refl eq_refl eq_refl eq_refl)
      as (w' & Hrun & Hfs & _); [cbn; lia |].
    exists w'. split; [exact Hrun | exact Hfs].
Defined.

(** ** What the models are called with *)

Ltac trace_tail :=
  eexists; split;
  [ cbn [snd w_trace log advance]; rewrite <- ?app_assoc; cbn [app]; reflexivity
  | split; [reflexivity |] ].

Section ModelCalls.

Variable symbols : list ascii.
Variable cleaners : gmap string (string → string).
Variable clock : nat → Z.
Variable g : globals.

(** The events a run of [tts] adds once text processing has succeeded:
    the clock reading and the call of the acoustic model come first; among
    what follows there is no further call of the model, and at most one
    call of the vocoder, on the mel the model returned. *)
Lemma tts_calls_detail (text : string) (spk_id n_timesteps : Z)
    (length_scale temperature : Q) (output_path : option path)
    (cleaner : string) (w : world) (n_spk : option (list Z))
    (tp : text_processed) :
  speaker_tensor spk_id = Ok n_spk →
  process_text symbols cleaners text cleaner = Ok tp →
  ∃ rest,
    w_trace (tts symbols cleaners clock g text spk_id n_timesteps length_scale
               temperature output_path cleaner w).2
    = w_trace w
      ++ EvNow (clock (w_ticks w))
         :: EvSynthesise
              (synthesise_call tp n_spk n_timesteps temperature length_scale)
         :: rest
    ∧ synthesise_calls rest = []
    ∧ (decode_calls rest = []
       ∨ ∃ o, model_synthesise (model g)
                (synthesise_call tp n_spk n_timesteps temperature length_scale)
              = Ok o
              ∧ decode_calls rest = [o_mel o]).
Proof.
  intros Hspk Hpt. rewrite tts_eval, Hspk, Hpt. cbv zeta.
  destruct (model_synthesise _ _) as [o | e] eqn:Hsynth;
    [| trace_tail; now left].
  destruct (vocoder_decode _ _) as [row | e];
    [| trace_tail; right; now exists o].
  destruct (shape_last (squeeze row)) as [samples | e];
    [| trace_tail; right; now exists o].
  destruct (true_div _ samples) as [rtf_w | e];
    [| trace_tail; right; now exists o].
  destruct (os_path_join output_path _) as [folder | e];
    [| trace_tail; right; now exists o].
  match goal with |- context [save_to_folder ?f ?out ?wv ?fo ?w4] =>
    pose proof (save_to_folder_keeps_trace out wv fo w4) as [Htr _];
    destruct (save_to_folder f out wv fo w4) as [[[] | e] w5]
  end; cbn [snd] in Htr.
  - eexists. split.
    + cbn [snd w_trace log advance] in *. rewrite Htr.
      rewrite <- ?app_assoc. cbn [app]. reflexivity.
    + split; [reflexivity |]. right. now exists o.
  - eexists. split.
    + cbn [snd]. rewrite Htr. cbn [w_trace log advance].
      rewrite <- ?app_assoc. cbn [app]. reflexivity.
    + split; [reflexivity |]. right. now exists o.
Qed.

End ModelCalls.

(** X8.  The vocoder decodes the mel the model returned.  A run of [tts]
    calls [vocoder.decode] at most once, only after text processing and
    the acoustic model have succeeded, and on exactly the mel-spectrogram
    [model.synthesise] returned. *)
Theorem vocoder_decodes_model_mel
    (symbols : list ascii) (cleaners : gmap string (string → string))
    (clock : nat → Z) (g : globals)
    (text : string) (spk_id n_timesteps : Z) (length_scale temperature : Q)
    (output_path : option path) (cleaner : string) (w : world) :
  ∃ decoded,
    decode_calls
      (w_trace (tts symbols cleaners clock g text spk_id n_timesteps length_scale
                  temperature output_path cleaner w).2)
    = decode_calls (w_trace w) ++ decoded
    ∧ (decoded = []
       ∨ ∃ n_spk tp o,
           speaker_tensor spk_id = Ok n_spk
           ∧ process_text symbols cleaners text cleaner = Ok tp
           ∧ model_synthesise (model g)
               (synthesise_call tp n_spk n_timesteps temperature length_scale)
             = Ok o
           ∧ decoded = [o_mel o]).
Proof.
  destruct (speaker_tensor spk_id) as [n_spk | e] eqn:Hspk.
  2: { exists []. rewrite tts_eval, Hspk, app_nil_r. split; [reflexivity | now left]. }
  destruct (process_text symbols cleaners text cleaner) as [tp | e] eqn:Hpt.
  2: { exists []. rewrite tts_eval, Hspk, Hpt, app_nil_r.
       split; [reflexivity | now left]. }
  destruct (tts_calls_detail symbols cleaners clock g text spk_id n_timesteps
              length_scale temperature output_path cleaner w n_spk tp Hspk Hpt)
    as (rest & -> & _ & [Hnone | (o & Hsynth & Hone)]).
  - exists []. rewrite decode_calls_app. cbn [decode_calls omap list_omap].
    fold (decode_calls rest). rewrite Hnone. split; [reflexivity | now left].
  - exists [o_mel o]. rewrite decode_calls_app. cbn [decode_calls omap list_omap].
    fold (decode_calls rest). rewrite Hone. split; [reflexivity |].
    right. now exists n_spk, tp, o.
Qed.

(** X9.  The knobs of the command line reach the model.  In every
    command-line run, each call of [model.synthesise] carries the
    temperature given with [--temperature] and the duration scale given
    with [--length_scale] (or their defaults), not swapped although
    [tts] and [synthesise] take them in opposite orders, together with
    the symbols and the length obtained from [--text_input] under the
    resolved cleaner.  When both models load, the speaker id fits the
    speaker tensor and the text is processed, there is exactly one such
    call. *)
Theorem cli_knobs_reach_model
    (symbols : list ascii) (cleaners : gmap string (string → string))
    (clock : nat → Z) (hub_matcha : string → option acoustic_model)
    (hub_vocos : string → option vocoder_model) (initial_threads : Z)
    (argv : list cli_argument) (w : world) :
  ∃ calls,
    synthesise_calls
      (w_trace (main symbols cleaners clock hub_matcha hub_vocos initial_threads
                  argv w).2)
    = synthesise_calls (w_trace w) ++ calls
    ∧ Forall
        (λ a,
           a_temperature a = temperature (parse_args argv)
           ∧ a_length_scale a = length_scale (parse_args argv)
           ∧ ∃ tp,
               process_text symbols cleaners (text_input (parse_args argv))
                 (resolve_cleaner (speaker_id (parse_args argv))
                    (cleaner (parse_args argv))) = Ok tp
               ∧ a_x a = x tp ∧ a_x_lengths a = x_lengths tp)
        calls
    ∧ (∀ m v n_spk tp,
         hub_matcha matxa = Some m → hub_vocos alvocat = Some v →
         speaker_tensor (speaker_id (parse_args argv)) = Ok n_spk →
         process_text symbols cleaners (text_input (parse_args argv))
           (resolve_cleaner (speaker_id (parse_args argv))
              (cleaner (parse_args argv))) = Ok tp →
         length calls = 1).
Proof.
  rewrite main_eval. cbv zeta.
  assert (Hnone : ∀ evs (w0 : world),
            synthesise_calls evs = [] →
            synthesise_calls (w_trace (log evs w0)) = synthesise_calls (w_trace w0)).
  { intros evs w0 Hevs. cbn [w_trace log].
    now rewrite synthesise_calls_app, Hevs, app_nil_r. }
  destruct (hub_matcha matxa) as [m |].
  2: { exists []. cbn [snd]. rewrite Hnone, app_nil_r by reflexivity.
       split; [reflexivity |]. split; [constructor | discriminate]. }
  destruct (hub_vocos alvocat) as [v |].
  2: { exists []. cbn [snd]. rewrite !Hnone, app_nil_r by reflexivity.
       split; [reflexivity |]. split; [constructor | discriminate]. }
  destruct (speaker_tensor (speaker_id (parse_args argv))) as [n_spk | e] eqn:Hspk.
  2: { exists []. rewrite tts_eval, Hspk. cbn [snd].
       rewrite !Hnone, app_nil_r by reflexivity.
       split; [reflexivity |]. split; [constructor | discriminate]. }
  destruct (process_text symbols cleaners (text_input (parse_args argv)) _)
    as [tp | e] eqn:Hpt.
  2: { exists []. rewrite tts_eval, Hspk, Hpt. cbn [snd].
       rewrite !Hnone, app_nil_r by reflexivity.
       split; [reflexivity |]. split; [constructor | discriminate]. }
  match goal with |- context [tts ?s ?c ?k ?g ?t ?i ?n ?l ?te ?o ?cl ?w1] =>
    destruct (tts_calls_detail s c k g t i n l te o cl w1 n_spk tp Hspk Hpt)
      as (rest & -> & Hrest & _)
  end.
  eexists [_]. rewrite synthesise_calls_app, !Hnone by reflexivity.
  cbn [synthesise_calls omap list_omap]. fold (synthesise_calls rest).
  rewrite Hrest. split; [reflexivity |]. split; [| reflexivity].
  constructor; [| constructor]. cbn [a_temperature a_length_scale a_x a_x_lengths
                                      synthesise_call].
  split; [reflexivity |]. split; [reflexivity |]. now exists tp.
Qed.

Lemma cli_knobs_reach_model_witness :
  ∃ a,
    synthesise_calls
      (w_trace (main ex_symbols ex_cleaners ex_clock ex_hub_matcha ex_hub_vocos 4
                  [Arg_temperature (1 # 3); Arg_length_scale 2;
                   Arg_text_input "ba"] ex_world).2) = [a]
    ∧ a_temperature a = (1 # 3)%Q
    ∧ a_length_scale a = 2%Q.
Proof.
  destruct (cli_knobs_reach_model ex_symbols ex_cleaners ex_clock ex_hub_matcha
              ex_hub_vocos 4
              [Arg_temperature (1 # 3); Arg_length_scale 2; Arg_text_input "ba"]
              ex_world) as (calls & Hcalls & Hknobs & Hone).
  specialize (Hone ex_model ex_vocoder _ _ eq_refl eq_refl eq_refl eq_refl).
  destruct calls as [| a [| b rest]]; [discriminate | | discriminate].
  apply Forall_cons in Hknobs as [(Htemp & Hscale & _) _].
  exists a. split; [exact Hcalls |]. split; [exact Htemp | exact Hscale].
Defined.

(** ** Speakers and their folders *)

Lemma speaker_folder_inj (a b : Z) :
  "spk_" +:+ pretty a = "spk_" +:+ pretty b → a = b.
Proof. cbn. intros [= Heq]. now apply (inj pretty). Qed.

(** X10.  Each speaker has a folder of its own.  A run for speaker
    [spk_id], whether it succeeds or not, leaves every path under the
    folder [spk_<other>] of any other speaker id, under the same output
    root, exactly as it was. *)
Theorem speakers_have_separate_folders
    (symbols : list ascii) (cleaners : gmap string (string → string))
    (clock : nat → Z) (g : globals)
    (text : string) (spk_id n_timesteps : Z) (length_scale temperature : Q)
    (root : path) (cleaner : string) (w : world) (other : Z) (p : path) :
  other ≠ spk_id →
  (root ++ ["spk_" +:+ pretty other]) `prefix_of` p →
  w_fs (tts symbols cleaners clock g text spk_id n_timesteps length_scale
          temperature (Some root) cleaner w).2 !! p = w_fs w !! p.
Proof.
  intros Hother [q ->].
  destruct (tts_fs_frame symbols cleaners clock g text spk_id n_timesteps
              length_scale temperature (Some root) cleaner w
              ((root ++ ["spk_" +:+ pretty other]) ++ q))
    as [Heq | (root' & [= <-] & Hin)]; [exact Heq |].
  exfalso. apply Hother. apply speaker_folder_inj.
  remember ("spk_" +:+ pretty other) as theirs eqn:Htheirs.
  remember ("spk_" +:+ pretty spk_id) as ours eqn:Hours.
  rewrite <- !app_assoc in Hin. cbn [app] in Hin.
  destruct Hin as [[k Hpre] | [Hnpy | Hwav]].
  - rewrite <- !app_assoc in Hpre. apply app_inv_head in Hpre.
    cbn [app] in Hpre. now injection Hpre as -> _.
  - apply app_inv_head in Hnpy. now injection Hnpy as -> _.
  - apply app_inv_head in Hwav. now injection Hwav as -> _.
Qed.

Lemma speakers_have_separate_folders_witness :
  w_fs (tts ex_symbols ex_cleaners ex_clock ex_globals "ab" 2 80 (9 # 10) (7 # 10)
          (Some ["out"]) "catalan_cleaners" ex_world_blocked).2
    !! ["out"; "spk_3"; "synth.wav"]
  = w_fs ex_world_blocked !! ["out"; "spk_3"; "synth.wav"].
Proof.
  apply (speakers_have_separate_folders ex_symbols ex_cleaners ex_clock ex_globals
           "ab" 2 80 (9 # 10) (7 # 10) ["out"] "catalan_cleaners" ex_world_blocked 3).
  - discriminate.
  - now exists ["synth.wav"].
Defined.

(** ** The real-time factor and the wall clock *)

Lemma rtf_sign (microseconds n : Z) :
  (0 < n)%Z →
  (0 <= total_seconds microseconds * 22050 / inject_Z n)%Q ↔ (0 ≤ microseconds)%Z.
Proof.
  intros Hn. destruct n as [| n | n]; [lia | | lia].
  unfold total_seconds, Qle, Qdiv, Qmult, Qinv, inject_Z. cbn. lia.
Qed.

(** X11.  The real-time factor follows the wall clock.  In a run that
    returns normally, the waveform real-time factor that is reported is
    non-negative exactly when the second reading of [datetime.now()] is
    not earlier than the first: a clock set back during the run gives a
    negative factor. *)
Theorem rtf_sign_follows_clock
    (symbols : list ascii) (cleaners : gmap string (string → string))
    (clock : nat → Z) (g : globals)
    (text : string) (spk_id n_timesteps : Z) (length_scale temperature : Q)
    (output_path : option path) (cleaner : string) (w w' : world) :
  tts symbols cleaners clock g text spk_id n_timesteps length_scale temperature
    output_path cleaner w = (Ok (), w') →
  ∃ args o tp rtf_w,
    w_trace w' =
      w_trace w
      ++ run_events (clock (w_ticks w)) args o (clock (S (w_ticks w))) tp rtf_w
           n_timesteps
    ∧ In (EvPrint (MsgRtfWaveform rtf_w))
         (run_events (clock (w_ticks w)) args o (clock (S (w_ticks w))) tp rtf_w
            n_timesteps)
    ∧ ((0 <= rtf_w)%Q ↔ (clock (w_ticks w) ≤ clock (S (w_ticks w)))%Z).
Proof.
  intros Hrun. apply tts_ok_inv in Hrun
    as (n_spk & tp & o & row & n & rtf_w & root & fs1 & fs2 & fs3 & Hrun).
  cbv zeta in Hrun.
  destruct Hrun as (_ & _ & _ & _ & Hshape & Hdiv & _ & _ & _ & _ & ->).
  apply shape_last_samples in Hshape as [_ ->].
  apply true_div_ok in Hdiv as [Hn ->].
  eexists _, o, tp, _. split; [reflexivity |]. split.
  - unfold run_events, report. cbn. tauto.
  - rewrite rtf_sign by lia. lia.
Qed.

Lemma rtf_sign_follows_clock_witness :
  ∃ w' rtf_w,
    tts ex_symbols ex_cleaners ex_clock ex_globals "ab" 2 80 (9 # 10) (7 # 10)
      (Some ["out"]) "catalan_cleaners" ex_world = (Ok (), w')
    ∧ In (EvPrint (MsgRtfWaveform rtf_w)) (w_trace w')
    ∧ (0 <= rtf_w)%Q.
Proof.
  pose (run := tts ex_symbols ex_cleaners ex_clock ex_globals "ab" 2 80 (9 # 10)
                 (7 # 10) (Some ["out"]) "catalan_cleaners" ex_world).
  assert (Hrun : run = (Ok (), run.2)) by (vm_compute; reflexivity).
  destruct (rtf_sign_follows_clock _ _ _ _ _ _ _ _ _ _ _ _ _ Hrun)
    as (args & o & tp & rtf_w & Htrace & Hin & Hsign).
  exists run.2, rtf_w. split; [exact Hrun |]. split.
  - rewrite Htrace. apply in_or_app. right. exact Hin.
  - apply Hsign. unfold ex_clock, ex_world. cbn [w_ticks]. lia.
Defined.

(** ** The cleaner handed to [tts] *)

(** X12.  The sentinel never reaches the text front end.  Whatever the
    speaker id and the requested profile are, the cleaner that line 147
    hands to [tts] is not ["auto"], and the cleaner the accent table
    gives is always one of the four Catalan cleaners. *)
Theorem resolved_cleaner_is_never_auto (id : Z) (requested : string) :
  resolve_cleaner id requested ≠ "auto"
  ∧ get_cleaner_for_speaker_id id
    ∈ [ "catalan_balear_cleaners"; "catalan_cleaners";
        "catalan_occidental_cleaners"; "catalan_valencia_cleaners" ].
Proof.
  assert (Htable : get_cleaner_for_speaker_id id
                   ∈ [ "catalan_balear_cleaners"; "catalan_cleaners";
                       "catalan_occidental_cleaners"; "catalan_valencia_cleaners" ]).
  { destruct (decide (id < 0 ∨ 7 < id)%Z) as [Hout | Hin].
    - unfold get_cleaner_for_speaker_id.
      rewrite speaker_cleaner_mapping_absent by exact Hout.
      apply list_elem_of_In. cbn. tauto.
    - assert (Hid : (id = 0 ∨ id = 1 ∨ id = 2 ∨ id = 3 ∨ id = 4 ∨ id = 5
                     ∨ id = 6 ∨ id = 7)%Z) by lia.
      apply list_elem_of_In.
      repeat (destruct Hid as [-> | Hid]; [vm_compute; tauto |]).
      subst id. vm_compute. tauto. }
  split; [| exact Htable].
  destruct (String.eqb_spec requested "auto") as [-> | Hne].
  - rewrite resolve_cleaner_auto. intros Heq. rewrite Heq in Htable.
    apply list_elem_of_In in Htable. cbn in Htable.
    destruct Htable as [H | [H | [H | [H | []]]]]; discriminate.
  - now rewrite resolve_cleaner_explicit.
Qed.

(** ** Loading the models *)

(** X13.  Models are loaded before the text is looked at.  At the command
    line, when both models load and the speaker id fits the speaker
    tensor, a failure of text processing, such as an unregistered
    profile, is met only after the acoustic model and then the vocoder
    have been fetched; the run raises the error of the text front end
    unchanged and has printed and loaded exactly what precedes [tts]. *)
Theorem cli_loads_before_text
    (symbols : list ascii) (cleaners : gmap string (string → string))
    (clock : nat → Z) (hub_matcha : string → option acoustic_model)
    (hub_vocos : string → option vocoder_model) (initial_threads : Z)
    (argv : list cli_argument) (w : world)
    (m : acoustic_model) (v : vocoder_model) (e : exn) :
  hub_matcha matxa = Some m →
  hub_vocos alvocat = Some v →
  (speaker_id (parse_args argv) < 2 ^ 63)%Z →
  process_text symbols cleaners (text_input (parse_args argv))
    (resolve_cleaner (speaker_id (parse_args argv)) (cleaner (parse_args argv)))
  = Raise e →
  main symbols cleaners clock hub_matcha hub_vocos initial_threads argv w
  = (Raise e,
     log [ EvPrint (MsgThreads initial_threads); EvPrint (MsgThreads 8);
           EvLoadModel "projecte-aina/matxa-tts-cat-multiaccent";
           EvPrint (MsgModelLoaded (model_parameters m));
           EvLoadVocoder "projecte-aina/alvocat-vocos-22khz" ] w).
Proof.
  intros Hm Hv Hrange Hpt. rewrite main_eval, Hm, Hv. cbv zeta.
  rewrite tts_eval, Hpt, speaker_tensor_in_range by (unfold int64_max; lia).
  now rewrite log_log.
Qed.

Lemma cli_loads_before_text_witness :
  main ex_symbols ex_cleaners ex_clock ex_hub_matcha ex_hub_vocos 4
    [Arg_cleaner "klingon_cleaners"] ex_world
  = (Raise (UnknownProfile "klingon_cleaners"),
     log [ EvPrint (MsgThreads 4); EvPrint (MsgThreads 8);
           EvLoadModel "projecte-aina/matxa-tts-cat-multiaccent";
           EvPrint (MsgModelLoaded 5);
           EvLoadVocoder "projecte-aina/alvocat-vocos-22khz" ] ex_world).
Proof.
  apply (cli_loads_before_text ex_symbols ex_cleaners ex_clock ex_hub_matcha
           ex_hub_vocos 4 [Arg_cleaner "klingon_cleaners"] ex_world ex_model
           ex_vocoder); reflexivity.
Defined.

(** X14.  A model that cannot be loaded stops the run.  When the acoustic
    model cannot be fetched, the command-line run raises at once: the
    vocoder is not fetched, the text is not processed and no model is
    called.  When only the vocoder cannot be fetched, the acoustic model
    has been loaded and reported, and again no synthesis is attempted.
    In both cases the disk is unchanged. *)
Theorem cli_load_failure
    (symbols : list ascii) (cleaners : gmap string (string → string))
    (clock : nat → Z) (hub_matcha : string → option acoustic_model)
    (hub_vocos : string → option vocoder_model) (initial_threads : Z)
    (argv : list cli_argument) (w : world) :
  (hub_matcha matxa = None →
   main symbols cleaners clock hub_matcha hub_vocos initial_threads argv w
   = (Raise (LoadError matxa),
      log [ EvPrint (MsgThreads initial_threads); EvPrint (MsgThreads 8);
            EvLoadModel matxa ] w))
  ∧ (∀ m, hub_matcha matxa = Some m → hub_vocos alvocat = None →
     main symbols cleaners clock hub_matcha hub_vocos initial_threads argv w
     = (Raise (LoadError alvocat),
        log [ EvPrint (MsgThreads initial_threads); EvPrint (MsgThreads 8);
              EvLoadModel matxa; EvPrint (MsgModelLoaded (model_parameters m));
              EvLoadVocoder alvocat ] w)).
Proof.
  split.
  - intros Hm. now rewrite main_eval, Hm.
  - intros m Hm Hv. rewrite main_eval, Hm, Hv. cbv zeta. now rewrite log_log.
Qed.

Lemma cli_load_failure_witness :
  main ex_symbols ex_cleaners ex_clock ex_hub_offline ex_hub_vocos 4
    [Arg_output_path ["out"]] ex_world
  = (Raise (LoadError matxa),
     log [EvPrint (MsgThreads 4); EvPrint (MsgThreads 8); EvLoadModel matxa]
       ex_world)
  ∧ main ex_symbols ex_cleaners ex_clock ex_hub_matcha ex_hub_offline 4
      [Arg_output_path ["out"]] ex_world
    = (Raise (LoadError alvocat),
       log [ EvPrint (MsgThreads 4); EvPrint (MsgThreads 8); EvLoadModel matxa;
             EvPrint (MsgModelLoaded 5); EvLoadVocoder alvocat ] ex_world).
Proof.
  split.
  - apply (proj1 (cli_load_failure ex_symbols ex_cleaners ex_clock ex_hub_offline
                    ex_hub_vocos 4 [Arg_output_path ["out"]] ex_world)).
    reflexivity.
  - apply (proj2 (cli_load_failure ex_symbols ex_cleaners ex_clock ex_hub_matcha
                    ex_hub_offline 4 [Arg_output_path ["out"]] ex_world) ex_model);
      reflexivity.
Defined.

(** ** What a run never does to the disk *)

Lemma save_to_folder_keeps_paths (output : synth_output) (waveform : audio)
    (folder p : path) (w : world) (n : node) :
  w_fs w !! p = Some n →
  w_fs (save_to_folder "synth" output waveform folder w).2 !! p = Some n
  ∨ (p = folder ++ ["synth.npy"] ∨ p = folder ++ ["synth.wav"])
    ∧ ∃ c c', n = File c
              ∧ w_fs (save_to_folder "synth" output waveform folder w).2 !! p
                = Some (File c').
Proof.
  intros Hp. rewrite save_to_folder_eval.
  destruct (mkdir_parents [] folder (w_fs w)) as [fs1 | e] eqn:Hmk; [| now left].
  assert (Hp1 : fs1 !! p = Some n).
  { destruct (mkdir_parents_changes [] folder _ _ p Hmk) as [-> | (Hnone & _)];
      [exact Hp | congruence]. }
  assert (Hfile : ∀ fs : gmap path node,
            fs !! p = Some n → fs !! p ≠ Some Dir → ∃ c, n = File c).
  { intros fs Hfs Hnd. destruct n as [| c]; [congruence | now exists c]. }
  destruct (write_file _ _ fs1) as [fs2 | e] eqn:Hw1; [| now left].
  apply write_file_ok_iff in Hw1 as (_ & Hnd1 & ->).
  destruct (decide (p = folder ++ ["synth.npy"])) as [-> | Hnpy].
  - destruct (Hfile fs1 Hp1 Hnd1) as [c ->].
    right. split; [now left |]. exists c, (NpyArray (mel output)).
    split; [reflexivity |].
    destruct (write_file _ _ _) as [fs3 | e] eqn:Hw2.
    + apply write_file_ok_iff in Hw2 as (_ & _ & ->). cbn [snd w_fs set_fs].
      rewrite lookup_insert_ne
        by (intros Heq; apply path_div_inj in Heq; discriminate).
      apply lookup_insert_eq.
    + cbn [snd w_fs set_fs]. apply lookup_insert_eq.
  - assert (Hp2 : <[folder ++ ["synth.npy"] := File (NpyArray (mel output))]> fs1
                    !! p = Some n) by now rewrite lookup_insert_ne.
    destruct (write_file _ _ _) as [fs3 | e] eqn:Hw2; [| now left].
    apply write_file_ok_iff in Hw2 as (_ & Hnd2 & ->). cbn [snd w_fs set_fs].
    destruct (decide (p = folder ++ ["synth.wav"])) as [-> | Hwav].
    + destruct (Hfile _ Hp2 Hnd2) as [c ->].
      right. split; [now right |]. exists c, (WavFile waveform 22050 "PCM_24").
      split; [reflexivity | apply lookup_insert_eq].
    + left. now rewrite lookup_insert_ne.
Qed.

(** X15.  A run never deletes anything.  Whether it succeeds or fails, a
    run of [tts] keeps every directory and every file that was on disk;
    the only entries whose content it may replace are regular files named
    [synth.npy] and [synth.wav] in the speaker's folder, and these are
    still regular files afterwards. *)
Theorem tts_never_deletes
    (symbols : list ascii) (cleaners : gmap string (string → string))
    (clock : nat → Z) (g : globals)
    (text : string) (spk_id n_timesteps : Z) (length_scale temperature : Q)
    (output_path : option path) (cleaner : string) (w : world)
    (p : path) (n : node) :
  w_fs w !! p = Some n →
  w_fs (tts symbols cleaners clock g text spk_id n_timesteps length_scale
          temperature output_path cleaner w).2 !! p = Some n
  ∨ ∃ root c c',
      output_path = Some root
      ∧ (p = (root ++ ["spk_" +:+ pretty spk_id]) ++ ["synth.npy"]
         ∨ p = (root ++ ["spk_" +:+ pretty spk_id]) ++ ["synth.wav"])
      ∧ n = File c
      ∧ w_fs (tts symbols cleaners clock g text spk_id n_timesteps length_scale
                temperature output_path cleaner w).2 !! p = Some (File c').
Proof.
  intros Hp. rewrite tts_eval.
  destruct (speaker_tensor spk_id) as [n_spk | e]; [| now left].
  destruct (process_text symbols cleaners text cleaner) as [tp | e]; [| now left].
  cbv zeta.
  destruct (model_synthesise _ _) as [o | e]; [| now left].
  destruct (vocoder_decode _ _) as [row | e]; [| now left].
  destruct (shape_last (squeeze row)) as [samples | e]; [| now left].
  destruct (true_div _ samples) as [rtf_w | e]; [| now left].
  destruct output_path as [root |]; [| now left].
  cbn [os_path_join].
  match goal with |- context [save_to_folder ?f ?out ?wv ?fo ?w4] =>
    pose proof (save_to_folder_keeps_paths out wv fo p w4 n Hp) as Hkeep;
    destruct (save_to_folder f out wv fo w4) as [[[] | e] w5]
  end; cbn [snd w_fs log advance] in *;
    (destruct Hkeep as [Hsame | (Hname & c & c' & -> & Hnew)];
     [now left | right; exists root, c, c'; eauto]).
Qed.

Lemma tts_never_deletes_witness :
  w_fs (tts ex_symbols ex_cleaners ex_clock ex_globals "ab" 2 80 (9 # 10) (7 # 10)
          (Some ["out"]) "catalan_cleaners" ex_world_blocked).2
    !! ["out"; "spk_2"; "synth.wav"] = Some Dir.
Proof.
  destruct (tts_never_deletes ex_symbols ex_cleaners ex_clock ex_globals "ab" 2 80
              (9 # 10) (7 # 10) (Some ["out"]) "catalan_cleaners" ex_world_blocked
              ["out"; "spk_2"; "synth.wav"] Dir eq_refl)
    as [Hsame | (root & c & c' & _ & _ & Hfile & _)];
    [exact Hsame | discriminate Hfile].
Defined.

(** ** The parameter count *)

Lemma pretty_N_char_digit (x : N) : pretty_N_char x ≠ ","%char.
Proof. compute. repeat case_match; discriminate. Qed.

Lemma pretty_N_go_digits (x : N) (s : string) :
  Forall (λ c, c ≠ ","%char) (list_ascii_of_string s) →
  Forall (λ c, c ≠ ","%char) (list_ascii_of_string (pretty_N_go x s)).
Proof.
  revert s. induction (N.lt_wf_0 x) as [x _ IH]. intros s Hs.
  destruct (decide (x = 0%N)) as [-> | Hpos]; [now rewrite pretty_N_go_0 |].
  rewrite pretty_N_go_step by lia. apply IH.
  - apply N.div_lt; lia.
  - cbn. constructor; [apply pretty_N_char_digit | exact Hs].
Qed.

Lemma pretty_N_digits (n : N) :
  Forall (λ c, c ≠ ","%char) (list_ascii_of_string (pretty n)).
Proof.
  unfold pretty, pretty_N. destruct (decide (n = 0%N)).
  - cbn. repeat constructor. discriminate.
  - apply pretty_N_go_digits. constructor.
Qed.

Lemma group_digits_filter (digits : list ascii) (k : nat) :
  Forall (λ c, c ≠ ","%char) digits →
  filter (λ c, c ≠ ","%char) (group_digits digits k) = digits.
Proof.
  intros Hdigits. revert k.
  induction Hdigits as [| d rest Hd _ IH]; intros k; [reflexivity |].
  destruct k as [| k]; cbn [group_digits].
  - rewrite filter_cons_False by (intros Hne; now apply Hne).
    rewrite filter_cons_True by exact Hd. now rewrite IH.
  - rewrite filter_cons_True by exact Hd. now rewrite IH.
Qed.

Lemma group_digits_length (digits : list ascii) (k : nat) :
  (k ≤ 3)%nat →
  length (group_digits digits k) = length digits + (length digits + 2 - k) / 3.
Proof.
  revert k. induction digits as [| d rest IH]; intros k Hk.
  - cbn. destruct k as [| [| [| k]]]; reflexivity.
  - destruct k as [| k]; cbn [group_digits length].
    + rewrite IH by lia.
      replace (S (length rest) + 2 - 0) with (length rest + 2 - 2 + 1 * 3) by lia.
      rewrite Nat.div_add by discriminate. lia.
    + rewrite IH by lia.
      replace (S (length rest) + 2 - S k) with (length rest + 2 - k) by lia.
      reflexivity.
Qed.

(** X16.  The parameter count that is printed.  [count_params] renders the
    sum of the element counts of the parameters: taking the commas out of
    its result gives back the decimal digits of that sum, and a result
    with [d] digits holds [(d - 1) / 3] commas.  The sum is additive over
    the parameter list, a parameter without dimensions counts for one and
    a parameter with an empty dimension for none. *)
Theorem count_params_digits (parameters : list (list N)) :
  filter (λ c, c ≠ ","%char) (list_ascii_of_string (count_params parameters))
  = list_ascii_of_string (pretty (total_numel parameters))
  ∧ length (list_ascii_of_string (count_params parameters))
    = length (list_ascii_of_string (pretty (total_numel parameters)))
      + (length (list_ascii_of_string (pretty (total_numel parameters))) - 1) / 3
  ∧ (∀ more, total_numel (parameters ++ more)
             = (total_numel parameters + total_numel more)%N)
  ∧ total_numel ([] :: parameters) = (1 + total_numel parameters)%N
  ∧ (∀ shape, 0%N ∈ shape →
       total_numel (shape :: parameters) = total_numel parameters).
Proof.
  unfold count_params, format_thousands.
  rewrite list_ascii_of_string_of_list_ascii.
  set (digits := list_ascii_of_string (pretty (total_numel parameters))).
  split; [| split; [| split; [| split]]].
  - rewrite filter_reverse, group_digits_filter.
    + apply reverse_involutive.
    + apply Forall_reverse, pretty_N_digits.
  - rewrite length_reverse, group_digits_length, length_reverse by lia.
    f_equal. f_equal. lia.
  - intros more. induction parameters as [| shape rest IH]; [reflexivity |].
    cbn [app total_numel foldr] in *. fold (total_numel (rest ++ more)).
    fold (total_numel rest). rewrite IH. lia.
  - reflexivity.
  - intros shape Hzero. cbn [total_numel foldr]. fold (total_numel parameters).
    assert (Hnumel : numel shape = 0%N).
    { induction shape as [| dim shape IH]; [inversion Hzero |].
      cbn [numel foldr]. fold (numel shape).
      apply elem_of_cons in Hzero as [<- | Hzero]; [reflexivity |].
      rewrite IH by exact Hzero. lia. }
    rewrite Hnumel. lia.
Qed.

Lemma count_params_digits_witness :
  total_numel [[5; 0; 7]; [1000; 1000]; [2; 3]]%N
  = total_numel [[1000; 1000]; [2; 3]]%N
  ∧ count_params [[5; 0; 7]; [1000; 1000]; [2; 3]]%N = "1,000,006".
Proof.
  destruct (count_params_digits [[1000; 1000]; [2; 3]]%N) as (_ & _ & _ & _ & Hzero).
  split; [| reflexivity].
  apply Hzero. apply list_elem_of_In. cbn. tauto.
Defined.

(** ** The length handed to the model *)

Lemma process_text_fields (symbols : list ascii)
    (cleaners : gmap string (string → string)) (text cleaner : string)
    (tp : text_processed) :
  process_text symbols cleaners text cleaner = Ok tp →
  x_orig tp = text ∧ x_lengths tp = [Z.of_nat (length (x tp))].
Proof.
  unfold process_text.
  destruct (text_to_sequence symbols cleaners text [cleaner]) as [codes | e];
    [| discriminate].
  cbn. destruct (sequence_to_text symbols _) as [phones | e]; [| discriminate].
  cbn. intros [= <-]. split; reflexivity.
Qed.

(** X19.  The declared length matches the symbols at every call.  In any
    run of [tts], successful or not, each call of [model.synthesise]
    receives as [x_lengths] the one-element tensor holding the number of
    symbols of the [x] it receives. *)
Theorem model_call_lengths_consistent
    (symbols : list ascii) (cleaners : gmap string (string → string))
    (clock : nat → Z) (g : globals)
    (text : string) (spk_id n_timesteps : Z) (length_scale temperature : Q)
    (output_path : option path) (cleaner : string) (w : world) :
  ∃ calls,
    synthesise_calls
      (w_trace (tts symbols cleaners clock g text spk_id n_timesteps length_scale
                  temperature output_path cleaner w).2)
    = synthesise_calls (w_trace w) ++ calls
    ∧ Forall (λ a, a_x_lengths a = [Z.of_nat (length (a_x a))]) calls.
Proof.
  destruct (speaker_tensor spk_id) as [n_spk | e] eqn:Hspk.
  2: { exists []. rewrite tts_eval, Hspk, app_nil_r. split; [reflexivity | constructor]. }
  destruct (process_text symbols cleaners text cleaner) as [tp | e] eqn:Hpt.
  2: { exists []. rewrite tts_eval, Hspk, Hpt, app_nil_r.
       split; [reflexivity | constructor]. }
  destruct (tts_calls_detail symbols cleaners clock g text spk_id n_timesteps
              length_scale temperature output_path cleaner w n_spk tp Hspk Hpt)
    as (rest & -> & Hrest & _).
  eexists [_]. rewrite synthesise_calls_app.
  cbn [synthesise_calls omap list_omap]. fold (synthesise_calls rest).
  rewrite Hrest. split; [reflexivity |].
  constructor; [| constructor]. cbn [a_x a_x_lengths synthesise_call].
  now apply process_text_fields in Hpt.
Qed.
